(** * The vehicle detector's image pipeline

    A shallow embedding of the pre-processing and post-processing code of
    [VehicleDetector.tsx] (the gallery-picker screen) and of its live-camera
    sibling: the log list, the guard on the model instance, the RGBA to RGB
    channel reduction and the thresholding of the detector's output. *)

From Stdlib Require Import ZArith Floats Strings.Byte Sorting.Sorted.
From stdpp Require Import base option list strings pretty gmap.

Set Warnings "-inexact-float".
Local Open Scope string_scope.

(** ** JavaScript numbers

    A JavaScript number is an IEEE 754 binary64 value, which is what Rocq's
    primitive [float] is.  The two conversions to text that the code uses are
    written over the exact value [m * 2^e] of a finite number. *)
Module Js.

(** The number [2^53]: integers below it in absolute value are exactly
    representable and print as their decimal digits. *)
Definition MAX_SAFE : Z := 2 ^ 53.

(** The exact value of a finite number when it is an integer. *)
Definition integer_value (x : float) : option Z :=
  match Prim2SF x with
  | S754_zero _ => Some 0%Z
  | S754_finite s m e =>
      let mag :=
        if (0 <=? e)%Z then Some (Z.pos m * 2 ^ e)%Z
        else if (Z.pos m mod 2 ^ (- e) =? 0)%Z then Some (Z.pos m / 2 ^ (- e))%Z
        else None in
      (fun v : Z => if s then (- v)%Z else v) <$> mag
  | _ => None
  end.

Section Engine.
(** [Number::toString] on the finite values that are not safe integers
    (the shortest digits that round-trip, possibly in exponent form) is
    left to the engine. *)
Variable Number_toString_ext : float -> string.

(** [String(x)] and [`${x}`] for a number [x]. *)
Definition Number_toString (x : float) : string :=
  match Prim2SF x with
  | S754_nan => "NaN"
  | S754_infinity false => "Infinity"
  | S754_infinity true => "-Infinity"
  | S754_zero _ => "0"
  | S754_finite _ _ _ =>
      match integer_value x with
      | Some v => if (Z.abs v <? MAX_SAFE)%Z then pretty v
                  else Number_toString_ext x
      | None => Number_toString_ext x
      end
  end.

(** [x.toFixed(0)]: the integer nearest to [x], the larger one on a tie
    of the absolute value, with the sign in front; values of [10^21] and
    more, and the values that are not finite, print as [String(x)]. *)
Definition toFixed0 (x : float) : string :=
  match Prim2SF x with
  | S754_finite s m e =>
      let sign := if s then "-" else "" in
      if (0 <=? e)%Z then
        if (10 ^ 21 <=? Z.pos m * 2 ^ e)%Z
        then sign +:+ Number_toString (abs x)
        else sign +:+ pretty (Z.pos m * 2 ^ e)%Z
      else sign +:+ pretty ((2 * Z.pos m + 2 ^ (- e)) / 2 ^ (- e + 1))%Z
  | _ => Number_toString x
  end.
End Engine.

(** [undefined] converted by [Number(...)]. *)
Definition NaN : float := nan.

End Js.

(** ** The screen's state and its effects *)

(** What a call into a library gives back: a value, or a thrown error,
    kept as the text that [`${e}`] renders. *)
Inductive Result (A : Type) : Type :=
  | Returns (a : A)
  | Throws (e : string).
Arguments Returns {A} a.
Arguments Throws {A} e.

(** A typed array of the detector's output, each element as the number that
    [Number(...)] makes of it. *)
Abbreviation TypedArray := (list float) (only parsing).

(** A loaded model: [runSync] on the input buffer. *)
Record TensorflowModel : Type := {
  runSync : list byte -> Result (list TypedArray)
}.

Inductive ModelState : Type := loading | loaded | error.

(** The calls that leave the component, in the trace of a run. *)
Inductive ExtCall : Type :=
  | LoadTensorflowModel (url : string)
  | RunSync (input : list byte)
  | LaunchImageLibrary
  | TakePhoto
  | ManipulateAsync (uri : string)
  | FileBase64 (uri : string)
  | JpegDecode (base64 : string).

(** The component's [useState] cells, the console, the number of [Date]
    objects made so far and the trace of library calls. *)
Record World : Type := {
  modelUri : option string;
  model : option TensorflowModel;
  modelState : ModelState;
  logs : list string;
  imageUri : option string;
  processing : bool;
  console : list string;
  consoleErrors : list string;
  dates : nat;
  calls : list ExtCall
}.

Definition initialWorld : World :=
  {| modelUri := None; model := None; modelState := loading; logs := [];
     imageUri := None; processing := false; console := [];
     consoleErrors := []; dates := 0; calls := [] |}.

(** The picker's answer. *)
Inductive PickerResult : Type :=
  | Canceled
  | Picked (uri : string).

(** What the libraries answer during one run. *)
Record Externals : Type := {
  loadTensorflowModel : string -> Result TensorflowModel;
  launchImageLibraryAsync : Result PickerResult;
  takePhoto : Result string;
  manipulateAsync : string -> Result string;
  fileBase64 : string -> Result string;
  jpegDecode : string -> Result (list byte)
}.

(** State passing with exceptions. *)
Definition Eff (A : Type) : Type := World -> Result A * World.

#[export] Instance Eff_ret : MRet Eff := fun A a w => (Returns a, w).
#[export] Instance Eff_bind : MBind Eff := fun A B k m w =>
  match m w with
  | (Returns a, w') => k a w'
  | (Throws e, w') => (Throws e, w')
  end.

Definition throw {A} (e : string) : Eff A := fun w => (Throws e, w).

(** [try { body } catch (e) { handler }] *)
Definition try_catch {A} (body : Eff A) (handler : string -> Eff A) : Eff A :=
  fun w =>
    match body w with
    | (Returns a, w') => (Returns a, w')
    | (Throws e, w') => handler e w'
    end.

(** The world with the library calls [cs] added to its trace. *)
Definition recordCalls (cs : list ExtCall) (w : World) : World :=
  {| modelUri := modelUri w; model := model w;
     modelState := modelState w; logs := logs w;
     imageUri := imageUri w; processing := processing w;
     console := console w; consoleErrors := consoleErrors w;
     dates := dates w; calls := calls w ++ cs |}.

(** A call into a library: it is recorded, and answers [r]. *)
Definition extern {A} (c : ExtCall) (r : Result A) : Eff A :=
  fun w => (r, recordCalls [c] w).

Definition setModelState (s : ModelState) : Eff unit :=
  fun w =>
    (Returns tt, {| modelUri := modelUri w; model := model w;
           modelState := s; logs := logs w;
           imageUri := imageUri w; processing := processing w;
           console := console w; consoleErrors := consoleErrors w;
           dates := dates w; calls := calls w |}).

Definition setModel (m : TensorflowModel) : Eff unit :=
  fun w =>
    (Returns tt, {| modelUri := modelUri w; model := Some m;
           modelState := modelState w; logs := logs w;
           imageUri := imageUri w; processing := processing w;
           console := console w; consoleErrors := consoleErrors w;
           dates := dates w; calls := calls w |}).

Definition setImageUri (u : string) : Eff unit :=
  fun w =>
    (Returns tt, {| modelUri := modelUri w; model := model w;
           modelState := modelState w; logs := logs w;
           imageUri := Some u; processing := processing w;
           console := console w; consoleErrors := consoleErrors w;
           dates := dates w; calls := calls w |}).

Definition setProcessing (b : bool) : Eff unit :=
  fun w =>
    (Returns tt, {| modelUri := modelUri w; model := model w;
           modelState := modelState w; logs := logs w;
           imageUri := imageUri w; processing := b;
           console := console w; consoleErrors := consoleErrors w;
           dates := dates w; calls := calls w |}).

Definition console_error (e : string) : Eff unit :=
  fun w =>
    (Returns tt, {| modelUri := modelUri w; model := model w;
           modelState := modelState w; logs := logs w;
           imageUri := imageUri w; processing := processing w;
           console := console w; consoleErrors := consoleErrors w ++ [e];
           dates := dates w; calls := calls w |}).

(** A counted [for] loop over the indices [idx], threading the local
    variables [s]. *)
Fixpoint for_loop {S : Type} (idx : list nat) (body : nat -> S -> Eff S)
    (s : S) : Eff S :=
  match idx with
  | [] => mret s
  | i :: rest => s' ← body i s; for_loop rest body s'
  end.

(** ** Channel reduction (step E of [runInference]) *)

(** The length of the detector's input buffer, [320 * 320 * 3]. *)
Definition RGB_SIZE : nat := 320 * 320 * 3.

(** [rgba[i]] stored into a [Uint8Array]: a read past the end is
    [undefined], which such an array stores as 0. *)
Definition sample (rgba : list byte) (i : nat) : byte :=
  default x00 (rgba !! i).

(** The loop [for (let i = 0; i < rgba.length; i += 4)] with its counter [p]
    and the three stores of its body.  A store past the end of [rgb] does
    nothing, as in a typed array and as stdpp's list insert. *)
Fixpoint stripAlphaLoop (fuel : nat) (rgba : list byte) (i p : nat)
    (rgb : list byte) : list byte :=
  match fuel with
  | O => rgb
  | S fuel' =>
      if (i <? length rgba)%nat then
        let rgb1 := <[p := sample rgba i]> rgb in
        let rgb2 := <[p + 1 := sample rgba (i + 1)]> rgb1 in
        let rgb3 := <[p + 2 := sample rgba (i + 2)]> rgb2 in
        stripAlphaLoop fuel' rgba (i + 4) (p + 3) rgb3
      else rgb
  end.

(** [const rgb = new Uint8Array(320 * 320 * 3)] and the loop from
    [i = 0], [p = 0].  The loop makes at most [rgba.length] rounds. *)
Definition stripAlpha (rgba : list byte) : list byte :=
  stripAlphaLoop (length rgba) rgba 0 0 (replicate RGB_SIZE x00).

(** ** The detector's screens *)

(** The two screens that share the pipeline. *)
Inductive Variant : Type :=
  | Gallery   (* VehicleDetector.tsx: pick an image from the gallery *)
  | Camera.   (* the live-camera screen: take a photo *)

(** The confidence threshold of [if (score > 0.4)]. *)
Definition SCORE_THRESHOLD : float := 0.4%float.

(** The number of detection slots of [for (let i = 0; i < 25; i++)]. *)
Definition SLOTS : nat := 25.

(** The object literal [COCO_LABELS]; its keys are property names. *)
Definition COCO_LABELS : gmap string string :=
  list_to_map
    [("0", "person"); ("1", "bicycle"); ("2", "car"); ("3", "motorcycle");
     ("5", "bus"); ("7", "truck"); ("9", "traffic light")].

(** *** Counting a string as JavaScript does

    A string is held as its UTF-8 text, and JavaScript counts a string
    in UTF-16 code units: a character of one to three bytes is one code
    unit, a character of four bytes (past U+FFFF) is a surrogate pair,
    two code units. *)

(** The bytes [10xxxxxx], which continue a character. *)
Definition isContinuation (b : Ascii.ascii) : bool :=
  ((128 <=? Ascii.N_of_ascii b) && (Ascii.N_of_ascii b <? 192))%N.

(** The characters of a text, each as its bytes. *)
Definition characters (s : string) : list (list Ascii.ascii) :=
  let '(pending, chars) :=
    foldr (fun b '(pending, chars) =>
             if isContinuation b then (b :: pending, chars)
             else ([], (b :: pending) :: chars))
          ([], []) (String.list_ascii_of_string s) in
  match pending with
  | [] => chars
  | _ => pending :: chars
  end.

Definition codeUnits (c : list Ascii.ascii) : nat :=
  match c with
  | [] => 0
  | b :: _ => if (240 <=? Ascii.N_of_ascii b)%N then 2 else 1
  end.

(** The second half of the surrogate pair of a four-byte character,
    U+DC00 plus the character's last ten bits, written as three bytes
    in the way of UTF-8: what is left of the character when a slice
    starts in the middle of its pair. *)
Definition lowSurrogate (c : list Ascii.ascii) : list Ascii.ascii :=
  match c with
  | [_; _; b2; b3] =>
      [Ascii.ascii_of_N 237; Ascii.ascii_of_N (176 + N.land (Ascii.N_of_ascii b2) 15); b3]
  | _ => []
  end.

(** The last [n] code units of a text whose characters are [chars], the
    last one first, in front of [acc]. *)
Fixpoint lastUnits (n : nat) (chars : list (list Ascii.ascii))
    (acc : list Ascii.ascii) : list Ascii.ascii :=
  match n, chars with
  | 0, _ => acc
  | _, [] => acc
  | S n', c :: rest =>
      match codeUnits c, n' with
      | 2, 0 => (lowSurrogate c ++ acc)%list
      | 2, S n'' => lastUnits n'' rest (c ++ acc)%list
      | _, _ => lastUnits n' rest (c ++ acc)%list
      end
  end.

(** [s.slice(-n)]: the last [n] code units of [s], all of [s] when it
    has fewer. *)
Definition slice_last (n : nat) (s : string) : string :=
  String.string_of_list_ascii (lastUnits n (reverse (characters s)) []).

Arguments slice_last : simpl never.

(** The mark in front of a detection's log line, as each file spells it. *)
Definition foundMark (v : Variant) : string :=
  match v with
  | Gallery => "âœ…"
  | Camera => "✅"
  end.

Definition runningMessage (v : Variant) : string :=
  match v with
  | Gallery => "Running inference on image..."
  | Camera => "Running inference..."
  end.

(** ** Sample surroundings, for the concrete runs *)

Definition sampleClock (n : nat) : string := "10:0" +:+ pretty n +:+ ":00".

Definition sampleDigits (x : float) : string := "1e+21".

Definition sampleTypeError (i : nat) : string :=
  "TypeError: Cannot read property '" +:+ pretty i +:+ "' of undefined".

Definition sampleOutput : list TypedArray :=
  [[]; [2; 5; 0]%float; [0.82; 0.3; 0.91]%float].

Definition sampleModel : TensorflowModel :=
  {| runSync := fun _ => Returns sampleOutput |}.

(** An answer of the detector in which no score is above the threshold. *)
Definition quietOutput : list TypedArray :=
  [[]; [2; 5]%float; [0.3; 0.4]%float].

Definition quietModel : TensorflowModel :=
  {| runSync := fun _ => Returns quietOutput |}.

(** The screen once [md] is loaded. *)
Definition readyWorld (md : TensorflowModel) : World :=
  {| modelUri := Some "asset:/models/yolov8n.tflite"; model := Some md;
     modelState := loaded; logs := []; imageUri := None;
     processing := false; console := []; consoleErrors := [];
     dates := 0; calls := [] |}.

Definition sampleExternals : Externals :=
  {| loadTensorflowModel := fun _ => Returns sampleModel;
     launchImageLibraryAsync := Returns (Picked "file:///photo.jpg");
     takePhoto := Returns "/tmp/photo.jpg";
     manipulateAsync := fun u => Returns (u +:+ "?320");
     fileBase64 := fun _ => Returns "/9j/";
     jpegDecode := fun _ => Returns [x0a; x14; x1e; xff] |}.

(** Libraries of which the model loader throws. *)
Definition failingExternals : Externals :=
  {| loadTensorflowModel := fun _ => Throws "Error: model file is corrupt";
     launchImageLibraryAsync := launchImageLibraryAsync sampleExternals;
     takePhoto := takePhoto sampleExternals;
     manipulateAsync := manipulateAsync sampleExternals;
     fileBase64 := fileBase64 sampleExternals;
     jpegDecode := jpegDecode sampleExternals |}.

(** ** The comma-separated boxes of the event form

    [parseCsv] of [AddEventModal.tsx] and the text that the form puts in
    the boxes for the affected routes and the authorities.  A JavaScript
    string is the list of its UTF-16 code units. *)
Module Csv.

Definition COMMA : N := 44.
Definition SPACE : N := 32.

(** The code units that [trim] removes: the white space and the line
    terminators of the language. *)
Definition isWhiteSpace (c : N) : bool :=
  ((9 <=? c) && (c <=? 13) || (c =? 32) || (c =? 160) || (c =? 5760) ||
   (8192 <=? c) && (c <=? 8202) || (c =? 8232) || (c =? 8233) ||
   (c =? 8239) || (c =? 8287) || (c =? 12288) || (c =? 65279))%N.

Fixpoint trimStart (s : list N) : list N :=
  match s with
  | [] => []
  | c :: rest => if isWhiteSpace c then trimStart rest else s
  end.

Definition trimEnd (s : list N) : list N := rev (trimStart (rev s)).

(** [s.trim()] *)
Definition trim (s : list N) : list N := trimEnd (trimStart s).

(** [v.split(',')]: the pieces between the commas, at least one. *)
Fixpoint split (v : list N) : list (list N) :=
  match v with
  | [] => [[]]
  | c :: rest =>
      if (c =? COMMA)%N then [] :: split rest
      else match split rest with
           | piece :: pieces => (c :: piece) :: pieces
           | [] => [[c]]
           end
  end.

(** [Boolean(s)] for a string: it is not empty. *)
Definition truthy (s : list N) : bool :=
  match s with
  | [] => false
  | _ => true
  end.

(** [parseCsv] *)
Definition parseCsv (v : list N) : list (list N) :=
  List.filter truthy (List.map trim (split v)).

(** [xs.join(', ')], the text of the box for the list [xs]. *)
Fixpoint join (xs : list (list N)) : list N :=
  match xs with
  | [] => []
  | [x] => x
  | x :: rest => x ++ COMMA :: SPACE :: join rest
  end.

(** An entry as [parseCsv] leaves it: not empty, without a comma, and
    with no white space at either end. *)
Definition clean (x : list N) : Prop :=
  x ≠ [] ∧ (COMMA ∉ x) ∧
  (∀ c, head x = Some c → isWhiteSpace c = false) ∧
  (∀ c, last x = Some c → isWhiteSpace c = false).

(** A code unit that separates entries or is trimmed away. *)
Definition separator (c : N) : Prop := c = COMMA ∨ isWhiteSpace c = true.

End Csv.

Section Detector.

(** The text of [new Date().toLocaleTimeString()] for the [n]-th [Date]
    object of the run. *)
Variable toLocaleTimeString : nat -> string.

(** The engine's digits for the numbers that are not safe integers. *)
Variable Number_toString_ext : float -> string.

(** The text of the [TypeError] thrown by [a[i]] when [a] is
    [undefined]. *)
Variable undefinedIndexError : nat -> string.

Definition logEntry (n : nat) (msg : string) : string :=
  "[" +:+ toLocaleTimeString n +:+ "] " +:+ msg.

(** [addLog]: [console.log(msg)], then the entry goes in front of
    [logs]. *)
Definition addLog (msg : string) : Eff unit :=
  fun w =>
    (Returns tt,
     {| modelUri := modelUri w; model := model w;
        modelState := modelState w;
        logs := logEntry (dates w) msg :: logs w;
        imageUri := imageUri w; processing := processing w;
        console := console w ++ [msg]; consoleErrors := consoleErrors w;
        dates := S (dates w); calls := calls w |}).

Definition getModel : Eff (option TensorflowModel) :=
  fun w => (Returns (model w), w).

Definition getModelUri : Eff (option string) :=
  fun w => (Returns (modelUri w), w).

(** [Number(a[i])]: a [TypeError] when [a] is [undefined], [NaN] when
    [i] is past the end of [a]. *)
Definition element (a : option TypedArray) (i : nat) : Eff float :=
  match a with
  | None => throw (undefinedIndexError i)
  | Some arr => mret (default Js.NaN (arr !! i))
  end.

(** [COCO_LABELS[classId] || `Class ${classId}`] *)
Definition labelOf (classId : float) : string :=
  let key := Js.Number_toString Number_toString_ext classId in
  match COCO_LABELS !! key with
  | Some l => if String.eqb l "" then "Class " +:+ key else l
  | None => "Class " +:+ key
  end.

Definition foundMessage (v : Variant) (label : string) (score : float)
    : string :=
  foundMark v +:+ " FOUND: " +:+ label +:+ " (" +:+
  Js.toFixed0 Number_toString_ext (score * 100)%float +:+ "%)".

(** The body of the loop over the detection slots, on the counter
    [count]. *)
Definition slotBody (v : Variant) (classes scores : option TypedArray)
    (i : nat) (count : nat) : Eff nat :=
  score ← element scores i;
  if (SCORE_THRESHOLD <? score)%float then
    classId ← element classes i;
    addLog (foundMessage v (labelOf classId) score);;
    mret (S count)
  else mret count.

(** The loop of step F and the line after it, on the two arrays. *)
Definition reportDetections (v : Variant)
    (classes scores : option TypedArray) : Eff unit :=
  count ← for_loop (seq 0 SLOTS) (slotBody v classes scores) 0;
  if Nat.eqb count 0 then addLog "No objects detected > 40%" else mret tt.

(** Step F of [runInference]: from [const classes = output[1]] to the
    line before [setProcessing(false)]. *)
Definition postProcess (v : Variant) (output : list TypedArray)
    : Eff unit :=
  let classes := output !! 1 in
  let scores := output !! 2 in
  reportDetections v classes scores.

(** [runInference] *)
Definition runInference (v : Variant) (ext : Externals) (filesUri : string)
    : Eff unit :=
  try_catch
    (m ← getModel;
     match m with
     | None => mret tt
     | Some md =>
         manipUri ← extern (ManipulateAsync filesUri)
                           (manipulateAsync ext filesUri);
         base64 ← extern (FileBase64 manipUri) (fileBase64 ext manipUri);
         rgba ← extern (JpegDecode base64) (jpegDecode ext base64);
         let rgb := stripAlpha rgba in
         addLog (runningMessage v);;
         output ← extern (RunSync rgb) (runSync md rgb);
         match v with
         | Gallery =>
             addLog ("Inference Done! Output tensors: " +:+
                     pretty (length output))
         | Camera => mret tt
         end;;
         postProcess v output;;
         setProcessing false
     end)
    (fun e => addLog ("Inference Error: " +:+ e);; setProcessing false).

(** [pickAndDetect] of the gallery screen; the timer's callback runs
    right after it. *)
Definition pickAndDetect (ext : Externals) : Eff unit :=
  m ← getModel;
  match m with
  | None => addLog "Wait for model to load."
  | Some _ =>
      next ← try_catch
        (result ← extern LaunchImageLibrary (launchImageLibraryAsync ext);
         match result with
         | Canceled => mret None
         | Picked sourceUri =>
             setImageUri sourceUri;;
             setProcessing true;;
             addLog "Image picked. Pre-processing...";;
             mret (Some sourceUri)
         end)
        (fun e => addLog ("Pick Error: " +:+ e);; setProcessing false;;
                  mret None);
      match next with
      | Some sourceUri => runInference Gallery ext sourceUri
      | None => mret tt
      end
  end.

(** [captureAndDetect] of the camera screen; [cameraReady] is
    [cameraRef.current] being set. *)
Definition captureAndDetect (cameraReady : bool) (ext : Externals)
    : Eff unit :=
  m ← getModel;
  match m with
  | None => addLog "Wait for model to load."
  | Some _ =>
      if negb cameraReady then addLog "Camera not ready"
      else
        next ← try_catch
          (setProcessing true;;
           addLog "Capturing photo...";;
           path ← extern TakePhoto (takePhoto ext);
           let sourceUri := "file://" +:+ path in
           setImageUri sourceUri;;
           addLog "Photo captured. Processing...";;
           mret (Some sourceUri))
          (fun e => addLog ("Capture Error: " +:+ e);;
                    setProcessing false;; mret None);
        match next with
        | Some sourceUri => runInference Camera ext sourceUri
        | None => mret tt
        end
  end.

(** [!modelUri]: the cell is [null] or holds the empty string. *)
Definition noUri (u : option string) : bool :=
  match u with
  | None => true
  | Some uri => String.eqb uri ""
  end.

(** The effect that loads the model when [modelUri] is set. *)
Definition load (v : Variant) (ext : Externals) : Eff unit :=
  u ← getModelUri;
  if noUri u then mret tt
  else
    let uri := default "" u in
    try_catch
        (setModelState loading;;
         addLog (match v with
                 | Gallery => "Loading model: ..." +:+ slice_last 20 uri
                 | Camera => "Loading model..."
                 end);;
         m ← extern (LoadTensorflowModel uri) (loadTensorflowModel ext uri);
         addLog "Model loaded! Warming up...";;
         try_catch
           (let dummy := replicate RGB_SIZE x00 in
            extern (RunSync dummy) (runSync m dummy);;
            addLog "Warmup complete.")
           (fun e => console_error e);;
         setModel m;;
         setModelState loaded)
        (fun e => addLog ("Error loading model: " +:+ e);;
                  setModelState error).

(** *** The detections as a sequence

    The list that the spec calls the output of post-processing: one
    labelled detection for each slot whose score passes, in slot order.
    The lemmas below relate it to the log lines that the loop writes. *)

Record LabeledDetection : Type := {
  label : string;
  score : float
}.

Definition slotScore (scores : TypedArray) (i : nat) : float :=
  default Js.NaN (scores !! i).

Definition slotClass (classes : TypedArray) (i : nat) : float :=
  default Js.NaN (classes !! i).

Definition passes (scores : TypedArray) (i : nat) : bool :=
  (SCORE_THRESHOLD <? slotScore scores i)%float.

Definition keptSlots (scores : TypedArray) : list nat :=
  List.filter (passes scores) (seq 0 SLOTS).

Definition detectionAt (classes scores : TypedArray) (i : nat)
    : LabeledDetection :=
  {| label := labelOf (slotClass classes i); score := slotScore scores i |}.

Definition detections (classes scores : TypedArray)
    : list LabeledDetection :=
  detectionAt classes scores <$> keptSlots scores.

Definition detectionMessage (v : Variant) (d : LabeledDetection) : string :=
  foundMessage v (label d) (score d).

(** The world after [addLog] on each of [msgs], first to last. *)
Definition logAll (msgs : list string) (w : World) : World :=
  foldl (fun w' msg => (addLog msg w').2) w msgs.

(** The entries of [msgs] logged from [Date] number [n] on, the newest
    in front. *)
Fixpoint entriesFrom (n : nat) (msgs : list string) : list string :=
  match msgs with
  | [] => []
  | msg :: rest => entriesFrom (S n) rest ++ [logEntry n msg]
  end.

(** The lines that [reportDetections] writes. *)
Definition reportLines (v : Variant) (classes scores : TypedArray)
    : list string :=
  match detections classes scores with
  | [] => ["No objects detected > 40%"]
  | ds => detectionMessage v <$> ds
  end.

(** [m] makes no library call. *)
Definition silent {A} (m : Eff A) : Prop :=
  ∀ w, calls (m w).2 = calls w.

(** [m] only ever adds entries in front of the log. *)
Definition grows {A} (m : Eff A) : Prop :=
  ∀ w, logs w `suffix_of` logs (m w).2.

(** The world in which [runInference] calls the detector, after the
    image at [uri] was resized to [u], read as [b] and decoded. *)
Definition decodedWorld (v : Variant) (uri u b : string) (w : World)
    : World :=
  (addLog (runningMessage v)
     (recordCalls [JpegDecode b]
        (recordCalls [FileBase64 u]
           (recordCalls [ManipulateAsync uri] w)))).2.

(** The world in which step F of [runInference] starts, after the
    detector answered [n] arrays on the buffer [rgb]. *)
Definition inferredWorld (v : Variant) (uri u b : string)
    (rgb : list byte) (n : nat) (w : World) : World :=
  let w2 := recordCalls [RunSync rgb] (decodedWorld v uri u b w) in
  match v with
  | Gallery =>
      (addLog ("Inference Done! Output tensors: " +:+ pretty n) w2).2
  | Camera => w2
  end.

(** *** The rest of the two screens

    The effect that sets [modelUri] from the bundled asset, what the
    screens render from the state, and the screen's life as a sequence of
    effects and button presses. *)

Definition setModelUri (u : string) : Eff unit :=
  fun w =>
    (Returns tt, {| modelUri := Some u; model := model w;
           modelState := modelState w; logs := logs w;
           imageUri := imageUri w; processing := processing w;
           console := console w; consoleErrors := consoleErrors w;
           dates := dates w; calls := calls w |}).

(** An entry of what [useAssets] gives; [localUri] may be [null]. *)
Record Asset : Type := {
  localUri : option string;
  uri : string
}.

(** [a || b] for a string [a] that may be [null]. *)
Definition orElse (a : option string) (b : string) : string :=
  match a with
  | Some s => if String.eqb s "" then b else s
  | None => b
  end.

(** The effect on [assets]:
    [if (assets && assets[0]) setModelUri(assets[0].localUri || assets[0].uri)]. *)
Definition assetsEffect (assets : option (list Asset)) : Eff unit :=
  match assets with
  | Some (a :: _) => setModelUri (orElse (localUri a) (uri a))
  | _ => mret tt
  end.

Definition isLoaded (s : ModelState) : bool :=
  match s with
  | loaded => true
  | _ => false
  end.

(** [disabled={processing || modelState !== 'loaded'}] on the button of
    the gallery screen. *)
Definition pickDisabled (w : World) : bool :=
  processing w || negb (isLoaded (modelState w)).

(** What the camera screen renders: one of three texts, or the camera
    with its capture button, [disabled={processing}]. *)
Inductive CameraScreen : Type :=
  | RequestingCamera
  | NoCameraDevice
  | LoadingModel
  | CameraControls (captureDisabled : bool).

Definition cameraScreen (hasPermission hasDevice : bool) (w : World)
    : CameraScreen :=
  if negb hasPermission then RequestingCamera
  else if negb hasDevice then NoCameraDevice
  else if negb (isLoaded (modelState w)) then LoadingModel
  else CameraControls (processing w).

(** What happens to a screen: its two effects and its button.  Each one
    runs to its end, the timer's callback included, before the next. *)
Inductive Action : Type :=
  | AssetsChange (assets : option (list Asset))
  | LoadEffect (v : Variant) (ext : Externals)
  | PressPick (ext : Externals)
  | PressCapture (cameraReady : bool) (ext : Externals).

Definition act (a : Action) : Eff unit :=
  match a with
  | AssetsChange assets => assetsEffect assets
  | LoadEffect v ext => load v ext
  | PressPick ext => pickAndDetect ext
  | PressCapture cameraReady ext => captureAndDetect cameraReady ext
  end.

Definition runActions (l : list Action) (w : World) : World :=
  foldl (fun w' a => (act a w').2) w l.

(** The world in which the timer's callback of [pickAndDetect] starts,
    after the image at [u] was picked. *)
Definition pickedWorld (u : string) (w : World) : World :=
  (addLog "Image picked. Pre-processing..."
     (setProcessing true
        (setImageUri u (recordCalls [LaunchImageLibrary] w)).2).2).2.

(** The world in which [captureAndDetect] calls the camera, and the one
    in which its timer's callback starts, after the photo at [path] was
    taken. *)
Definition capturingWorld (w : World) : World :=
  recordCalls [TakePhoto]
    (addLog "Capturing photo..." (setProcessing true w).2).2.

Definition capturedWorld (path : string) (w : World) : World :=
  (addLog "Photo captured. Processing..."
     (setImageUri ("file://" +:+ path) (capturingWorld w)).2).2.

(** The first line that [load] logs. *)
Definition loadingMessage (v : Variant) (uri0 : string) : string :=
  match v with
  | Gallery => "Loading model: ..." +:+ slice_last 20 uri0
  | Camera => "Loading model..."
  end.

(** The world in which [load] has the model [m] and warms it up. *)
Definition warmingWorld (v : Variant) (uri0 : string) (w : World) : World :=
  recordCalls [RunSync (replicate RGB_SIZE x00)]
    (addLog "Model loaded! Warming up..."
       (recordCalls [LoadTensorflowModel uri0]
          (addLog (loadingMessage v uri0) (setModelState loading w).2).2)).2.

(** *** More sample surroundings *)

Definition sampleAsset : Asset :=
  {| localUri := Some "file:///cache/yolov8n.tflite";
     uri := "asset:/models/yolov8n.tflite" |}.

(** The two effects of a screen that starts. *)
Definition mountActions (v : Variant) : list Action :=
  [AssetsChange (Some [sampleAsset]); LoadEffect v sampleExternals].

(** The screen when the asset is known and no model is loaded yet. *)
Definition mountedWorld : World :=
  {| modelUri := Some "asset:/models/yolov8n.tflite"; model := None;
     modelState := loading; logs := []; imageUri := None;
     processing := false; console := []; consoleErrors := [];
     dates := 0; calls := [] |}.

(** Libraries of which the decoder throws. *)
Definition undecodableExternals : Externals :=
  {| loadTensorflowModel := loadTensorflowModel sampleExternals;
     launchImageLibraryAsync := launchImageLibraryAsync sampleExternals;
     takePhoto := takePhoto sampleExternals;
     manipulateAsync := manipulateAsync sampleExternals;
     fileBase64 := fileBase64 sampleExternals;
     jpegDecode := fun _ => Throws "Error: SOI not found" |}.

(** A detector that answers two arrays only, and one that throws. *)
Definition shortModel : TensorflowModel :=
  {| runSync := fun _ => Returns [[]; [2]%float] |}.

Definition coldModel : TensorflowModel :=
  {| runSync := fun _ => Throws "Error: interpreter failed" |}.

Definition coldExternals : Externals :=
  {| loadTensorflowModel := fun _ => Returns coldModel;
     launchImageLibraryAsync := launchImageLibraryAsync sampleExternals;
     takePhoto := takePhoto sampleExternals;
     manipulateAsync := manipulateAsync sampleExternals;
     fileBase64 := fileBase64 sampleExternals;
     jpegDecode := jpegDecode sampleExternals |}.

(** A picker that the user cancels, and a camera that throws. *)
Definition canceledExternals : Externals :=
  {| loadTensorflowModel := loadTensorflowModel sampleExternals;
     launchImageLibraryAsync := Returns Canceled;
     takePhoto := Throws "Error: camera is closed";
     manipulateAsync := manipulateAsync sampleExternals;
     fileBase64 := fileBase64 sampleExternals;
     jpegDecode := jpegDecode sampleExternals |}.

(** *** Statements about effects *)

(** [m] takes every world to one related to it by [R]. *)
Definition steps (R : World → World → Prop) {A} (m : Eff A) : Prop :=
  ∀ w, R w (m w).2.

(** [w'] is in [I] when [w] is. *)
Definition keeps (I : World → Prop) (w w' : World) : Prop := I w → I w'.

(** [m] never throws. *)
Definition safe {A} (m : Eff A) : Prop :=
  ∀ w, ∃ a, (m w).1 = Returns a.

(** [m] leaves a world in [P]; and: it does when it returns. *)
Definition ends (P : World → Prop) {A} (m : Eff A) : Prop :=
  ∀ w, P (m w).2.

Definition ends_ok (P : World → Prop) {A} (m : Eff A) : Prop :=
  ∀ w a w', m w = (Returns a, w') → P w'.

(** The model, its state and its location are the same in [w']. *)
Definition sameModel (w w' : World) : Prop :=
  model w' = model w ∧ modelState w' = modelState w ∧
  modelUri w' = modelUri w.

(** The state [loaded] comes with a model. *)
Definition loadedHasModel (w : World) : Prop :=
  modelState w = loaded → is_Some (model w).

(** The log list is the console's lines, stamped, the newest first. *)
Definition synced (w : World) : Prop :=
  dates w = length (console w) ∧ logs w = entriesFrom 0 (console w).

(** The library trace of [w'] starts with that of [w]; the preview image
    is the same in [w']. *)
Definition callsGrow (w w' : World) : Prop := calls w `prefix_of` calls w'.

Definition sameImage (w w' : World) : Prop := imageUri w' = imageUri w.

(** A call of the detector is on a buffer of [RGB_SIZE] bytes. *)
Definition shapeOk (c : ExtCall) : Prop :=
  match c with
  | RunSync input => length input = RGB_SIZE
  | _ => True
  end.

Definition shaped (w : World) : Prop := Forall shapeOk (calls w).

Local Open Scope nat_scope.
Local Open Scope list_scope.

(** ** Channel reduction: what the loop leaves in the buffer *)

Lemma stripAlphaLoop_length fuel rgba i p rgb :
  length (stripAlphaLoop fuel rgba i p rgb) = length rgb.
Proof.
  revert i p rgb.
  induction fuel as [|fuel IH]; intros i p rgb; simpl; [done|].
  destruct (i <? length rgba)%nat; [|done].
  rewrite IH. by rewrite !length_insert.
Qed.

Lemma stripAlpha_length rgba : length (stripAlpha rgba) = RGB_SIZE.
Proof.
  unfold stripAlpha. rewrite stripAlphaLoop_length. apply length_replicate.
Qed.

(** The three stores of one round, read back at [j]. *)
Lemma round_lookup (rgb : list byte) (p j : nat) (a b c : byte) :
  <[p + 2 := c]> (<[p + 1 := b]> (<[p := a]> rgb)) !! j =
  if bool_decide (p ≤ j < p + 3 ∧ j < length rgb)
  then Some (if bool_decide (j = p) then a
             else if bool_decide (j = p + 1) then b else c)
  else rgb !! j.
Proof.
  destruct (decide (j < length rgb)) as [Hj|Hj].
  - destruct (decide (j = p + 2)) as [->|H2].
    + rewrite list_lookup_insert_eq by (rewrite !length_insert; lia).
      rewrite bool_decide_eq_true_2 by lia.
      rewrite (bool_decide_eq_false_2 (p + 2 = p)) by lia.
      by rewrite (bool_decide_eq_false_2 (p + 2 = p + 1)) by lia.
    + rewrite list_lookup_insert_ne by lia.
      destruct (decide (j = p + 1)) as [->|H1].
      * rewrite list_lookup_insert_eq by (rewrite !length_insert; lia).
        rewrite bool_decide_eq_true_2 by lia.
        rewrite (bool_decide_eq_false_2 (p + 1 = p)) by lia.
        by rewrite bool_decide_eq_true_2.
      * rewrite list_lookup_insert_ne by lia.
        destruct (decide (j = p)) as [->|H0].
        -- rewrite list_lookup_insert_eq by lia.
           rewrite bool_decide_eq_true_2 by lia.
           by rewrite bool_decide_eq_true_2.
        -- rewrite list_lookup_insert_ne by lia.
           by rewrite bool_decide_eq_false_2 by lia.
  - rewrite bool_decide_eq_false_2 by lia.
    rewrite (lookup_ge_None_2 rgb) by lia.
    apply lookup_ge_None_2. rewrite !length_insert. lia.
Qed.

(** The loop started at pixel [k] (so [i = 4k], [p = 3k]) with enough
    rounds left: position [j] holds sample [j mod 3] of pixel [j / 3]
    when that pixel is at or after [k] and inside [rgba], and is
    untouched otherwise. *)
Lemma stripAlphaLoop_lookup fuel rgba k rgb j :
  length rgba ≤ 4 * k + 4 * fuel →
  stripAlphaLoop fuel rgba (4 * k) (3 * k) rgb !! j =
  if bool_decide (3 * k ≤ j ∧ 4 * (j / 3) < length rgba ∧ j < length rgb)
  then Some (sample rgba (4 * (j / 3) + j mod 3))
  else rgb !! j.
Proof.
  revert k rgb.
  induction fuel as [|fuel IH]; intros k rgb Hfuel; cbn [stripAlphaLoop].
  - rewrite bool_decide_eq_false_2; [done|].
    intros (H1 & H2 & _).
    pose proof (Nat.div_mod_eq j 3).
    pose proof (Nat.mod_upper_bound j 3). lia.
  - destruct (4 * k <? length rgba)%nat eqn:Hk.
    + apply Nat.ltb_lt in Hk.
      replace (4 * k + 4) with (4 * S k) by lia.
      replace (3 * k + 3) with (3 * S k) by lia.
      rewrite IH by lia.
      rewrite !length_insert.
      pose proof (Nat.div_mod_eq j 3) as Hdm.
      pose proof (Nat.mod_upper_bound j 3) as Hmod.
      case_bool_decide as Hc1.
      * rewrite bool_decide_eq_true_2; [done|]. lia.
      * rewrite round_lookup.
        case_bool_decide as Hc2.
        -- assert (j / 3 = k) as Hq by lia.
           rewrite (bool_decide_eq_true_2 (_ ∧ _ ∧ _)) by lia.
           f_equal.
           assert (j mod 3 = j - 3 * k) as Hr by lia.
           rewrite Hq, Hr.
           repeat case_bool_decide; f_equal; lia.
        -- case_bool_decide as Hc3; [|done].
           exfalso.
           destruct Hc3 as (H1 & H2 & H3).
           destruct (decide (3 * S k ≤ j)); [lia|].
           lia.
    + apply Nat.ltb_ge in Hk.
      rewrite bool_decide_eq_false_2; [done|].
      intros (H1 & H2 & _).
      pose proof (Nat.div_mod_eq j 3).
      pose proof (Nat.mod_upper_bound j 3). lia.
Qed.

(** Every position of the output: the sample of the pixel it belongs
    to, or zero past the last pixel of [rgba]. *)
Lemma stripAlpha_lookup rgba j :
  stripAlpha rgba !! j =
  if bool_decide (j < RGB_SIZE)
  then Some (if bool_decide (4 * (j / 3) < length rgba)
             then sample rgba (4 * (j / 3) + j mod 3) else x00)
  else None.
Proof.
  unfold stripAlpha.
  change 0 with (4 * 0) at 1. change 0 with (3 * 0) at 2.
  rewrite stripAlphaLoop_lookup by lia.
  rewrite length_replicate.
  repeat case_bool_decide; try lia; try done.
  - apply lookup_replicate_2. lia.
  - apply lookup_replicate_None. lia.
Qed.

(** The loop leaves by its test, not by its bound: more rounds change
    nothing. *)
Lemma stripAlphaLoop_enough fuel extra rgba k rgb :
  length rgba ≤ 4 * k + 4 * fuel →
  stripAlphaLoop (fuel + extra) rgba (4 * k) (3 * k) rgb =
  stripAlphaLoop fuel rgba (4 * k) (3 * k) rgb.
Proof.
  intros Hfuel. apply list_eq. intros j.
  rewrite !stripAlphaLoop_lookup by lia. done.
Qed.

(** One sample of a pixel that is inside both buffers. *)
Lemma stripAlpha_pixel rgba i c :
  i < 320 * 320 → c < 3 → 4 * i + c < length rgba →
  stripAlpha rgba !! (3 * i + c) = rgba !! (4 * i + c).
Proof.
  intros Hi Hc Hlen.
  rewrite stripAlpha_lookup.
  assert ((3 * i + c) / 3 = i) as Hq
    by (symmetry; apply Nat.div_unique with c; lia).
  assert ((3 * i + c) mod 3 = c) as Hr
    by (symmetry; apply Nat.mod_unique with i; lia).
  rewrite Hq, Hr.
  rewrite bool_decide_eq_true_2 by (unfold RGB_SIZE; lia).
  rewrite bool_decide_eq_true_2 by lia.
  unfold sample.
  destruct (lookup_lt_is_Some_2 rgba (4 * i + c) Hlen) as [b Hb].
  by rewrite Hb.
Qed.

(** ** The log *)

Lemma bind_returns {A B} (m : Eff A) (k : A → Eff B) w a w' :
  m w = (Returns a, w') → (m ≫= k) w = k a w'.
Proof. intros H. unfold mbind, Eff_bind. by rewrite H. Qed.

Lemma bind_throws {A B} (m : Eff A) (k : A → Eff B) w e w' :
  m w = (Throws e, w') → (m ≫= k) w = (Throws e, w').
Proof. intros H. unfold mbind, Eff_bind. by rewrite H. Qed.

Lemma addLog_returns msg w : (addLog msg w).1 = Returns tt.
Proof. done. Qed.

Lemma addLog_eta msg w : addLog msg w = (Returns tt, (addLog msg w).2).
Proof. done. Qed.

Lemma logAll_nil w : logAll [] w = w.
Proof. done. Qed.

Lemma logAll_cons msg msgs w :
  logAll (msg :: msgs) w = logAll msgs (addLog msg w).2.
Proof. done. Qed.

Lemma logAll_app msgs1 msgs2 w :
  logAll (msgs1 ++ msgs2) w = logAll msgs2 (logAll msgs1 w).
Proof. unfold logAll. apply foldl_app. Qed.

Lemma logAll_console msgs w : console (logAll msgs w) = console w ++ msgs.
Proof.
  revert w. induction msgs as [|msg msgs IH]; intros w.
  - by rewrite app_nil_r.
  - rewrite logAll_cons, IH. simpl. by rewrite <- app_assoc.
Qed.

Lemma logAll_dates msgs w : dates (logAll msgs w) = dates w + length msgs.
Proof.
  revert w. induction msgs as [|msg msgs IH]; intros w.
  - simpl. lia.
  - rewrite logAll_cons, IH. simpl. lia.
Qed.

Lemma entriesFrom_length n msgs : length (entriesFrom n msgs) = length msgs.
Proof.
  revert n. induction msgs as [|msg msgs IH]; intros n; simpl; [done|].
  rewrite length_app, IH. simpl. lia.
Qed.

Lemma logAll_logs msgs w :
  logs (logAll msgs w) = entriesFrom (dates w) msgs ++ logs w.
Proof.
  revert w. induction msgs as [|msg msgs IH]; intros w.
  - done.
  - rewrite logAll_cons, IH. simpl. by rewrite <- app_assoc.
Qed.

Lemma logAll_calls msgs w : calls (logAll msgs w) = calls w.
Proof.
  revert w. induction msgs as [|msg msgs IH]; intros w; [done|].
  by rewrite logAll_cons, IH.
Qed.

Lemma logAll_processing msgs w :
  processing (logAll msgs w) = processing w.
Proof.
  revert w. induction msgs as [|msg msgs IH]; intros w; [done|].
  by rewrite logAll_cons, IH.
Qed.

Lemma logAll_model msgs w :
  model (logAll msgs w) = model w ∧
  modelState (logAll msgs w) = modelState w.
Proof.
  revert w. induction msgs as [|msg msgs IH]; intros w; [done|].
  rewrite logAll_cons. destruct (IH (addLog msg w).2) as [-> ->]. done.
Qed.

(** ** The loop over the detection slots *)

(** The body at a slot whose score passes. *)
Lemma slotBody_pass v cs ss i count w :
  passes ss i = true →
  slotBody v (Some cs) (Some ss) i count w =
  (Returns (S count),
   (addLog (detectionMessage v (detectionAt cs ss i)) w).2).
Proof.
  unfold passes, slotScore. intros Hp.
  unfold slotBody, element.
  erewrite bind_returns by reflexivity.
  rewrite Hp. done.
Qed.

(** The body at a slot whose score does not pass: nothing happens,
    whatever the class array is. *)
Lemma slotBody_fail v classes ss i count w :
  passes ss i = false →
  slotBody v classes (Some ss) i count w = (Returns count, w).
Proof.
  unfold passes, slotScore. intros Hp.
  unfold slotBody, element.
  erewrite bind_returns by reflexivity.
  rewrite Hp. done.
Qed.

Lemma slots_loop v cs ss idx count w :
  for_loop idx (slotBody v (Some cs) (Some ss)) count w =
  (Returns (count + length (List.filter (passes ss) idx)),
   logAll ((λ i, detectionMessage v (detectionAt cs ss i)) <$>
           List.filter (passes ss) idx) w).
Proof.
  revert count w.
  induction idx as [|i idx IH]; intros count w; cbn [for_loop List.filter].
  - simpl. by rewrite Nat.add_0_r.
  - destruct (passes ss i) eqn:Hp.
    + erewrite bind_returns by (by apply slotBody_pass).
      rewrite IH. cbn [length fmap list_fmap]. rewrite logAll_cons.
      f_equal. f_equal. lia.
    + erewrite bind_returns by (by apply slotBody_fail).
      apply IH.
Qed.

Lemma slots_loop_none v classes ss idx count w :
  List.filter (passes ss) idx = [] →
  for_loop idx (slotBody v classes (Some ss)) count w = (Returns count, w).
Proof.
  revert count w.
  induction idx as [|i idx IH]; intros count w Hnone; cbn [for_loop].
  - done.
  - cbn [List.filter] in Hnone.
    destruct (passes ss i) eqn:Hp; [done|].
    erewrite bind_returns by (by apply slotBody_fail).
    by apply IH.
Qed.

(** What post-processing does on two arrays: it returns, and the world
    it leaves is the one after logging [reportLines]. *)
Lemma reportDetections_run v cs ss w :
  reportDetections v (Some cs) (Some ss) w =
  (Returns tt, logAll (reportLines v cs ss) w).
Proof.
  unfold reportDetections.
  erewrite bind_returns by apply slots_loop.
  unfold reportLines, detections, keptSlots.
  destruct (List.filter (passes ss) (seq 0 SLOTS)) as [|i kept].
  - reflexivity.
  - cbn [length Nat.add Nat.eqb fmap list_fmap]. unfold mret, Eff_ret.
    do 3 f_equal. by rewrite <- list_fmap_compose.
Qed.

Lemma postProcess_run v o0 cs ss rest w :
  postProcess v (o0 :: cs :: ss :: rest) w =
  (Returns tt, logAll (reportLines v cs ss) w).
Proof.
  unfold postProcess.
  change ((o0 :: cs :: ss :: rest) !! 1) with (Some cs).
  change ((o0 :: cs :: ss :: rest) !! 2) with (Some ss).
  exact (reportDetections_run v cs ss w).
Qed.

(** The kept slots are the passing slots below [SLOTS], in ascending
    order. *)
Lemma keptSlots_spec ss i :
  i ∈ keptSlots ss ↔ i < SLOTS ∧ passes ss i = true.
Proof.
  unfold keptSlots.
  rewrite list_elem_of_In, filter_In, <- list_elem_of_In, elem_of_seq.
  intuition lia.
Qed.

Lemma filter_seq_sorted (f : nat → bool) a n :
  StronglySorted lt (List.filter f (seq a n)).
Proof.
  revert a. induction n as [|n IH]; intros a; cbn [seq List.filter].
  - constructor.
  - destruct (f a); [|apply IH].
    constructor; [apply IH|].
    apply Forall_forall. intros x Hx.
    apply list_elem_of_In, filter_In in Hx as [Hx _].
    apply in_seq in Hx. lia.
Qed.

Lemma keptSlots_sorted ss : StronglySorted lt (keptSlots ss).
Proof. apply filter_seq_sorted. Qed.

(** ** Effects that leave the library trace, or the log's tail, alone *)

Lemma silent_ret {A} (a : A) : silent (mret a).
Proof. by intros w. Qed.

Lemma silent_throw {A} e : silent (@throw A e).
Proof. by intros w. Qed.

Lemma silent_addLog msg : silent (addLog msg).
Proof. by intros w. Qed.

Lemma silent_setProcessing b : silent (setProcessing b).
Proof. by intros w. Qed.

Lemma silent_bind {A B} (m : Eff A) (k : A → Eff B) :
  silent m → (∀ a, silent (k a)) → silent (m ≫= k).
Proof.
  intros Hm Hk w. unfold mbind, Eff_bind.
  specialize (Hm w). destruct (m w) as [[a|e] w']; simpl in *.
  - by rewrite Hk.
  - done.
Qed.

Lemma silent_try_catch {A} (m : Eff A) (h : string → Eff A) :
  silent m → (∀ e, silent (h e)) → silent (try_catch m h).
Proof.
  intros Hm Hh w. unfold try_catch.
  specialize (Hm w). destruct (m w) as [[a|e] w']; simpl in *.
  - done.
  - by rewrite Hh.
Qed.

Lemma silent_for_loop {S} idx (body : nat → S → Eff S) s :
  (∀ i s', silent (body i s')) → silent (for_loop idx body s).
Proof.
  intros Hbody. revert s.
  induction idx as [|i idx IH]; intros s; cbn [for_loop].
  - apply silent_ret.
  - apply silent_bind; [apply Hbody | apply IH].
Qed.

Lemma silent_element a i : silent (element a i).
Proof. destruct a; [apply silent_ret | apply silent_throw]. Qed.

Lemma silent_slotBody v classes scores i count :
  silent (slotBody v classes scores i count).
Proof.
  unfold slotBody.
  apply silent_bind; [apply silent_element|]. intros x.
  destruct (SCORE_THRESHOLD <? x)%float; [|apply silent_ret].
  apply silent_bind; [apply silent_element|]. intros classId.
  apply silent_bind; [apply silent_addLog|]. intros _. apply silent_ret.
Qed.

Lemma silent_reportDetections v classes scores :
  silent (reportDetections v classes scores).
Proof.
  unfold reportDetections.
  apply silent_bind.
  - apply silent_for_loop. intros i s'. apply silent_slotBody.
  - intros count. destruct (count =? 0); [apply silent_addLog|apply silent_ret].
Qed.

Lemma grows_ret {A} (a : A) : grows (mret a).
Proof. by intros w. Qed.

Lemma grows_throw {A} e : grows (@throw A e).
Proof. by intros w. Qed.

Lemma grows_addLog msg : grows (addLog msg).
Proof. intros w. by apply suffix_cons_r. Qed.

Lemma grows_extern {A} c (r : Result A) : grows (extern c r).
Proof. by intros w. Qed.

Lemma grows_setProcessing b : grows (setProcessing b).
Proof. by intros w. Qed.

Lemma grows_setImageUri u : grows (setImageUri u).
Proof. by intros w. Qed.

Lemma grows_setModel m : grows (setModel m).
Proof. by intros w. Qed.

Lemma grows_setModelState st : grows (setModelState st).
Proof. by intros w. Qed.

Lemma grows_console_error e : grows (console_error e).
Proof. by intros w. Qed.

Lemma grows_getModel : grows getModel.
Proof. by intros w. Qed.

Lemma grows_getModelUri : grows getModelUri.
Proof. by intros w. Qed.

Lemma grows_bind {A B} (m : Eff A) (k : A → Eff B) :
  grows m → (∀ a, grows (k a)) → grows (m ≫= k).
Proof.
  intros Hm Hk w. unfold mbind, Eff_bind.
  specialize (Hm w). destruct (m w) as [[a|e] w']; simpl in *.
  - etrans; [exact Hm | apply Hk].
  - done.
Qed.

Lemma grows_try_catch {A} (m : Eff A) (h : string → Eff A) :
  grows m → (∀ e, grows (h e)) → grows (try_catch m h).
Proof.
  intros Hm Hh w. unfold try_catch.
  specialize (Hm w). destruct (m w) as [[a|e] w']; simpl in *.
  - done.
  - etrans; [exact Hm | apply Hh].
Qed.

Lemma grows_for_loop {S} idx (body : nat → S → Eff S) s :
  (∀ i s', grows (body i s')) → grows (for_loop idx body s).
Proof.
  intros Hbody. revert s.
  induction idx as [|i idx IH]; intros s; cbn [for_loop].
  - apply grows_ret.
  - apply grows_bind; [apply Hbody | apply IH].
Qed.

Lemma grows_element a i : grows (element a i).
Proof. destruct a; [apply grows_ret | apply grows_throw]. Qed.

Create HintDb grows discriminated.
#[local] Hint Resolve grows_ret grows_throw grows_addLog grows_extern
  grows_setProcessing grows_setImageUri grows_setModel grows_setModelState
  grows_console_error grows_getModel grows_getModelUri grows_element
  : grows.

(** Break a composed effect into its steps and close each of them. *)
Ltac grows_step :=
  lazymatch goal with
  | |- grows (_ ≫= _) => apply grows_bind; [|intros ?]
  | |- grows (try_catch _ _) => apply grows_try_catch; [|intros ?]
  | |- grows (for_loop _ _ _) => apply grows_for_loop; intros ? ?
  | |- grows (match ?x with _ => _ end) => destruct x
  | |- grows _ => solve [eauto with grows]
  end.

Lemma grows_reportDetections v classes scores :
  grows (reportDetections v classes scores).
Proof. unfold reportDetections, slotBody. repeat grows_step. Qed.

#[local] Hint Resolve grows_reportDetections : grows.

Lemma grows_runInference v ext uri : grows (runInference v ext uri).
Proof. unfold runInference, postProcess. cbv zeta. repeat grows_step. Qed.

#[local] Hint Resolve grows_runInference : grows.

Lemma grows_pickAndDetect ext : grows (pickAndDetect ext).
Proof. unfold pickAndDetect. repeat grows_step. Qed.

Lemma grows_captureAndDetect ready ext :
  grows (captureAndDetect ready ext).
Proof. unfold captureAndDetect. cbv zeta. repeat grows_step. Qed.

Lemma grows_load v ext : grows (load v ext).
Proof. unfold load. cbv zeta. repeat grows_step. Qed.

(** ** The paths of [runInference] *)


(** One step of a run: a library call that answers as [H] says, or a
    line of the log. *)
Ltac step_extern H :=
  erewrite (bind_returns (extern _ _))
    by (unfold extern; rewrite H; reflexivity).

Ltac step_throw H :=
  erewrite (bind_throws (extern _ _))
    by (unfold extern; rewrite H; reflexivity).

Ltac step_log := erewrite (bind_returns (addLog _)) by apply addLog_eta.

(** The run up to the call of the detector. *)
Lemma runInference_decoded v ext uri w md u b rgba :
  model w = Some md →
  manipulateAsync ext uri = Returns u →
  fileBase64 ext u = Returns b →
  jpegDecode ext b = Returns rgba →
  runInference v ext uri w =
  try_catch
    (output ← extern (RunSync (stripAlpha rgba))
                     (runSync md (stripAlpha rgba));
     match v with
     | Gallery =>
         addLog ("Inference Done! Output tensors: " +:+
                 pretty (length output))
     | Camera => mret tt
     end;;
     postProcess v output;;
     setProcessing false)
    (fun e => addLog ("Inference Error: " +:+ e);; setProcessing false)
    (decodedWorld v uri u b w).
Proof.
  intros Hm Hu Hb Hrgba. unfold runInference, try_catch.
  erewrite (bind_returns getModel) by reflexivity.
  rewrite Hm.
  step_extern Hu. step_extern Hb. step_extern Hrgba.
  cbv zeta. step_log. done.
Qed.

(** The run up to the detector's answer [output]. *)
Lemma runInference_inferred v ext uri w md u b rgba output :
  model w = Some md →
  manipulateAsync ext uri = Returns u →
  fileBase64 ext u = Returns b →
  jpegDecode ext b = Returns rgba →
  runSync md (stripAlpha rgba) = Returns output →
  runInference v ext uri w =
  try_catch
    (postProcess v output;; setProcessing false)
    (fun e => addLog ("Inference Error: " +:+ e);; setProcessing false)
    (inferredWorld v uri u b (stripAlpha rgba) (length output) w).
Proof.
  intros Hm Hu Hb Hrgba Hout.
  erewrite runInference_decoded by done.
  unfold try_catch. step_extern Hout.
  unfold inferredWorld.
  destruct v.
  - step_log. done.
  - erewrite (bind_returns (mret _)) by reflexivity. done.
Qed.

(** The run when the detector throws [e]. *)
Lemma runInference_thrown v ext uri w md u b rgba e :
  model w = Some md →
  manipulateAsync ext uri = Returns u →
  fileBase64 ext u = Returns b →
  jpegDecode ext b = Returns rgba →
  runSync md (stripAlpha rgba) = Throws e →
  runInference v ext uri w =
  (addLog ("Inference Error: " +:+ e);; setProcessing false)
    (recordCalls [RunSync (stripAlpha rgba)] (decodedWorld v uri u b w)).
Proof.
  intros Hm Hu Hb Hrgba Hout.
  erewrite runInference_decoded by done.
  unfold try_catch. step_throw Hout. done.
Qed.

(** The run when the detector answers at least three arrays: the lines
    of [reportLines] are logged and [processing] is cleared. *)
Lemma runInference_reports v ext uri w md u b rgba o0 cs ss rest :
  model w = Some md →
  manipulateAsync ext uri = Returns u →
  fileBase64 ext u = Returns b →
  jpegDecode ext b = Returns rgba →
  runSync md (stripAlpha rgba) = Returns (o0 :: cs :: ss :: rest) →
  runInference v ext uri w =
  setProcessing false
    (logAll (reportLines v cs ss)
       (inferredWorld v uri u b (stripAlpha rgba)
          (length (o0 :: cs :: ss :: rest)) w)).
Proof.
  intros Hm Hu Hb Hrgba Hout.
  erewrite runInference_inferred by done.
  unfold try_catch.
  erewrite (bind_returns (postProcess _ _)) by apply postProcess_run.
  done.
Qed.

(** ** The threshold *)


(** ** Post-processing: the empty result *)

Lemma keptSlots_none ss :
  (∀ i, i < SLOTS → (SCORE_THRESHOLD <? slotScore ss i)%float = false) →
  keptSlots ss = [].
Proof.
  intros Hnone. unfold keptSlots.
  destruct (List.filter (passes ss) (seq 0 SLOTS)) as [|i kept] eqn:Hk;
    [done|].
  assert (i ∈ keptSlots ss) as Hi by (unfold keptSlots; rewrite Hk; left).
  apply keptSlots_spec in Hi as [Hi Hp].
  unfold passes in Hp. rewrite Hnone in Hp by done. done.
Qed.

Lemma reportDetections_none v classes ss w :
  keptSlots ss = [] →
  reportDetections v classes (Some ss) w =
  (Returns tt, (addLog "No objects detected > 40%" w).2).
Proof.
  unfold keptSlots. intros Hnone. unfold reportDetections.
  by rewrite (bind_returns _ _ w 0 w (slots_loop_none _ _ _ _ _ _ Hnone)).
Qed.

(** A run in which the detector throws: the handler's line. *)
Lemma runInference_detector_throws v ext uri w md u b rgba e :
  model w = Some md →
  manipulateAsync ext uri = Returns u →
  fileBase64 ext u = Returns b →
  jpegDecode ext b = Returns rgba →
  runSync md (stripAlpha rgba) = Throws e →
  console (runInference v ext uri w).2 =
    console w ++ [runningMessage v; "Inference Error: " +:+ e] ∧
  processing (runInference v ext uri w).2 = false.
Proof.
  intros Hm Hu Hb Hrgba Hout.
  erewrite runInference_thrown by done.
  unfold mbind, Eff_bind, decodedWorld.
  cbn [snd console processing addLog setProcessing recordCalls].
  by rewrite <- app_assoc.
Qed.

(** ** The guard on the model *)

Lemma pickAndDetect_no_model ext w :
  model w = None →
  pickAndDetect ext w =
  (Returns tt, (addLog "Wait for model to load." w).2).
Proof.
  intros Hm. unfold pickAndDetect.
  erewrite (bind_returns getModel) by reflexivity.
  by rewrite Hm.
Qed.

Lemma captureAndDetect_no_model ready ext w :
  model w = None →
  captureAndDetect ready ext w =
  (Returns tt, (addLog "Wait for model to load." w).2).
Proof.
  intros Hm. unfold captureAndDetect.
  erewrite (bind_returns getModel) by reflexivity.
  by rewrite Hm.
Qed.


(** The library calls of a run whose image decodes, whatever the
    decoded length and whatever the detector answers. *)
Lemma runInference_calls v ext uri w md u b rgba :
  model w = Some md →
  manipulateAsync ext uri = Returns u →
  fileBase64 ext u = Returns b →
  jpegDecode ext b = Returns rgba →
  calls (runInference v ext uri w).2 =
  calls w ++ [ManipulateAsync uri; FileBase64 u; JpegDecode b;
              RunSync (stripAlpha rgba)].
Proof.
  intros Hm Hu Hb Hrgba.
  destruct (runSync md (stripAlpha rgba)) as [output|e] eqn:Hout.
  - erewrite runInference_inferred by done.
    rewrite silent_try_catch.
    + destruct v;
        cbn [inferredWorld decodedWorld calls recordCalls addLog snd];
        by rewrite <- !app_assoc.
    + apply silent_bind;
        [unfold postProcess; apply silent_reportDetections|].
      intros _. apply silent_setProcessing.
    + intros e. apply silent_bind; [apply silent_addLog|].
      intros _. apply silent_setProcessing.
  - erewrite runInference_thrown by done.
    unfold mbind, Eff_bind, decodedWorld.
    cbn [snd calls addLog setProcessing recordCalls].
    by rewrite <- !app_assoc.
Qed.

(** ** Score arrays of other lengths than 25 *)

Lemma keptSlots_ext ss ss' :
  (∀ i, i < SLOTS → slotScore ss i = slotScore ss' i) →
  keptSlots ss = keptSlots ss'.
Proof.
  intros Hsame. unfold keptSlots. apply filter_ext_in.
  intros i Hi. apply in_seq in Hi. unfold passes.
  by rewrite Hsame by lia.
Qed.

(** Slots on which a test fails from [n] on are not needed. *)
Lemma filter_seq_beyond (f : nat → bool) n m :
  (∀ i, n ≤ i → f i = false) → n ≤ m →
  List.filter f (seq 0 m) = List.filter f (seq 0 n).
Proof.
  intros Hf Hle.
  assert (∀ k a, n ≤ a → List.filter f (seq a k) = []) as Hnil.
  { induction k as [|k IH]; intros a Ha; [reflexivity|].
    cbn [seq List.filter]. rewrite Hf by lia. apply IH. lia. }
  replace m with (n + (m - n)) by lia.
  rewrite seq_app, List.filter_app.
  rewrite (Hnil (m - n) (0 + n)) by lia.
  apply app_nil_r.
Qed.

(** The kept slots of an array of at most [SLOTS] scores are the passing
    slots inside the array. *)
Lemma keptSlots_short ss :
  length ss ≤ SLOTS →
  keptSlots ss = List.filter (passes ss) (seq 0 (length ss)).
Proof.
  intros Hlen. unfold keptSlots. apply filter_seq_beyond; [|exact Hlen].
  intros i Hi. unfold passes, slotScore. by rewrite lookup_ge_None_2.
Qed.

(** The lines of post-processing depend on the first [SLOTS] scores
    only. *)
Lemma reportLines_ext v cs ss ss' :
  (∀ i, i < SLOTS → slotScore ss i = slotScore ss' i) →
  reportLines v cs ss = reportLines v cs ss'.
Proof.
  intros Hsame. unfold reportLines, detections.
  rewrite <- (keptSlots_ext ss ss' Hsame).
  assert (detectionAt cs ss <$> keptSlots ss =
          detectionAt cs ss' <$> keptSlots ss) as Heq.
  { apply Forall_fmap_ext, Forall_forall.
    intros i [Hi _]%keptSlots_spec.
    unfold detectionAt. by rewrite (Hsame i Hi). }
  rewrite Heq. reflexivity.
Qed.

(** The lines of post-processing when a slot is kept: one for each kept
    slot. *)
Lemma reportLines_kept v cs ss :
  keptSlots ss ≠ [] →
  reportLines v cs ss =
  (λ i, foundMessage v (labelOf (slotClass cs i)) (slotScore ss i)) <$>
  keptSlots ss.
Proof.
  unfold reportLines, detections.
  destruct (keptSlots ss) as [|i kept]; [done|]. intros _.
  cbn [fmap list_fmap]. f_equal.
  rewrite <- list_fmap_compose. reflexivity.
Qed.

Lemma reportLines_none v cs ss :
  keptSlots ss = [] → reportLines v cs ss = ["No objects detected > 40%"].
Proof. unfold reportLines, detections. by intros ->. Qed.

(** The console after post-processing on two arrays. *)
Lemma reportDetections_console v cs ss w :
  console (reportDetections v (Some cs) (Some ss) w).2 =
  console w ++ reportLines v cs ss.
Proof. rewrite reportDetections_run. apply logAll_console. Qed.

(** The line of a detection whose label is ["Class "] and the index. *)
Lemma foundMessage_class v key x :
  foundMessage v ("Class " +:+ key) x =
  foundMark v +:+ " FOUND: Class " +:+ key +:+ " (" +:+
  Js.toFixed0 Number_toString_ext (x * 100)%float +:+ "%)".
Proof. unfold foundMessage. destruct v; reflexivity. Qed.

(** ** The screen before the model is loaded *)




(** ** The claims of the specification *)

(** C1 (as amended): for a decoded buffer of [4n] bytes the output has
    the fixed length [320 * 320 * 3], which is [3n] when [n] is the
    pixel count [320 * 320] of the normalized image; for every pixel [i]
    below [n] and below [320 * 320] the output bytes at [3i], [3i+1],
    [3i+2] are the input bytes at [4i], [4i+1], [4i+2]; and no alpha
    byte reaches the output: two inputs that differ in alpha bytes only
    give the same output. *)
Theorem stripAlpha_rgb_of_rgba (rgba : list byte) (n : nat) :
  length rgba = 4 * n →
  length (stripAlpha rgba) = RGB_SIZE ∧
  (n = 320 * 320 → length (stripAlpha rgba) = 3 * n) ∧
  (∀ i c, i < n → i < 320 * 320 → c < 3 →
     stripAlpha rgba !! (3 * i + c) = rgba !! (4 * i + c)) ∧
  (∀ rgba' : list byte,
     length rgba' = length rgba →
     (∀ i c, c < 3 → rgba' !! (4 * i + c) = rgba !! (4 * i + c)) →
     stripAlpha rgba' = stripAlpha rgba).
Proof.
  intros Hlen. split; [apply stripAlpha_length|]. split; [|split].
  - intros ->. rewrite stripAlpha_length. unfold RGB_SIZE. lia.
  - intros i c Hi Hi' Hc. apply stripAlpha_pixel; lia.
  - intros rgba' Hlen' Hsame. apply list_eq. intros j.
    rewrite !stripAlpha_lookup, Hlen'. unfold sample.
    pose proof (Nat.mod_upper_bound j 3).
    rewrite Hsame by lia. done.
Qed.

(** C2: on classes [2, 5, 0] and scores [0.82, 0.3, 0.91] the
    detections are car at 0.82 and person at 0.91, in that order, and
    these are the two lines written; on every input the detections are
    those of the passing slots below 25 taken in ascending slot order,
    whatever their scores, and the lines are written in that order (the
    log list, which grows at its head, then shows the last one first). *)
Theorem detections_in_slot_order :
  detections [2; 5; 0]%float [0.82; 0.3; 0.91]%float =
    [ {| label := "car"; score := 0.82 |};
      {| label := "person"; score := 0.91 |} ] ∧
  (∀ v o0 w,
     postProcess v [o0; [2; 5; 0]%float; [0.82; 0.3; 0.91]%float] w =
     (Returns tt,
      logAll [foundMark v +:+ " FOUND: car (82%)";
              foundMark v +:+ " FOUND: person (91%)"] w) ∧
     console
       (postProcess v [o0; [2; 5; 0]%float; [0.82; 0.3; 0.91]%float] w).2 =
     console w ++ [foundMark v +:+ " FOUND: car (82%)";
                   foundMark v +:+ " FOUND: person (91%)"] ∧
     logs
       (postProcess v [o0; [2; 5; 0]%float; [0.82; 0.3; 0.91]%float] w).2 =
     logEntry (S (dates w)) (foundMark v +:+ " FOUND: person (91%)") ::
     logEntry (dates w) (foundMark v +:+ " FOUND: car (82%)") :: logs w) ∧
  (∀ v cs ss w,
     ∃ slots : list nat,
       StronglySorted lt slots ∧
       (∀ i, i ∈ slots ↔ i < SLOTS ∧ passes ss i = true) ∧
       detections cs ss = detectionAt cs ss <$> slots ∧
       console (reportDetections v (Some cs) (Some ss) w).2 =
       console w ++
         match slots with
         | [] => ["No objects detected > 40%"]
         | _ => (λ i, detectionMessage v (detectionAt cs ss i)) <$> slots
         end).
Proof.
  split; [vm_compute; reflexivity|]. split.
  - intros v o0 w. rewrite postProcess_run.
    assert (reportLines v [2; 5; 0]%float [0.82; 0.3; 0.91]%float =
            [foundMark v +:+ " FOUND: car (82%)";
             foundMark v +:+ " FOUND: person (91%)"]) as ->
      by (destruct v; vm_compute; reflexivity).
    split; [done|]. cbn [snd]. split; [apply logAll_console|].
    by rewrite logAll_logs.
  - intros v cs ss w. exists (keptSlots ss).
    split; [apply keptSlots_sorted|].
    split; [apply keptSlots_spec|].
    split; [done|].
    rewrite reportDetections_run. cbn [snd].
    rewrite logAll_console. f_equal.
    unfold reportLines, detections.
    destruct (keptSlots ss) as [|i kept]; [done|].
    cbn [fmap list_fmap]. do 2 f_equal.
    by rewrite <- list_fmap_compose.
Qed.


(** C4: a class index whose property name is not in the label table
    gets the label ["Class "] followed by the index, and post-processing
    writes the slot's line with that label and returns normally; index
    42 gets ["Class 42"], and on the class array [[42]] with the score
    0.9 post-processing writes the one line [FOUND: Class 42 (90%)]
    behind the screen's mark. *)
Theorem unmapped_class_label (classId : float) :
  COCO_LABELS !! Js.Number_toString Number_toString_ext classId = None →
  labelOf classId =
    "Class " +:+ Js.Number_toString Number_toString_ext classId ∧
  labelOf 42%float = "Class 42" ∧
  (∀ v (cs ss : TypedArray) i count w,
     slotClass cs i = classId → passes ss i = true →
     slotBody v (Some cs) (Some ss) i count w =
     (Returns (S count),
      (addLog (foundMark v +:+ " FOUND: Class " +:+
               Js.Number_toString Number_toString_ext classId +:+ " (" +:+
               Js.toFixed0 Number_toString_ext (slotScore ss i * 100)%float
               +:+ "%)") w).2)) ∧
  (∀ v (o0 cs ss : TypedArray) rest i w,
     i < SLOTS → slotClass cs i = classId → passes ss i = true →
     (postProcess v (o0 :: cs :: ss :: rest) w).1 = Returns tt ∧
     ∃ before after,
       console (postProcess v (o0 :: cs :: ss :: rest) w).2 =
       console w ++ before ++
       (foundMark v +:+ " FOUND: Class " +:+
        Js.Number_toString Number_toString_ext classId +:+ " (" +:+
        Js.toFixed0 Number_toString_ext (slotScore ss i * 100)%float
        +:+ "%)") :: after) ∧
  (∀ v (o0 : TypedArray) w,
     console (postProcess v [o0; [42%float]; [0.9%float]] w).2 =
     console w ++ [foundMark v +:+ " FOUND: Class 42 (90%)"]).
Proof.
  intros Hnone.
  assert (labelOf classId =
          "Class " +:+ Js.Number_toString Number_toString_ext classId)
    as Hlabel by (unfold labelOf; by rewrite Hnone).
  split; [done|]. split; [vm_compute; reflexivity|].
  split; [|split].
  - intros v cs ss i count w Hc Hp.
    rewrite slotBody_pass by done.
    unfold detectionMessage, detectionAt. cbn [label score].
    by rewrite Hc, Hlabel, foundMessage_class.
  - intros v o0 cs ss rest i w Hi Hc Hp.
    rewrite postProcess_run. split; [reflexivity|].
    cbn [snd]. rewrite logAll_console.
    assert (i ∈ keptSlots ss) as Hin by by apply keptSlots_spec.
    rewrite reportLines_kept by (intros Hnil; rewrite Hnil in Hin;
                                 by apply not_elem_of_nil in Hin).
    apply list_elem_of_split in Hin as (l1 & l2 & ->).
    rewrite fmap_app, fmap_cons.
    rewrite Hc, Hlabel, foundMessage_class.
    by eexists _, _.
  - intros v o0 w. rewrite postProcess_run. cbn [snd].
    rewrite logAll_console.
    f_equal; destruct v; vm_compute; reflexivity.
Qed.

(** C5: when no slot's score is above the threshold there is no
    detection; post-processing returns normally after logging the one
    line ["No objects detected > 40%"]; the whole run returns normally
    with that line as its last one and [processing] cleared; and that
    line is not one the error handler can write, whose lines all start
    with ["Inference Error: "]. *)
Theorem no_detections_outcome v ext uri w md u b rgba output
    (ss : TypedArray) :
  model w = Some md →
  manipulateAsync ext uri = Returns u →
  fileBase64 ext u = Returns b →
  jpegDecode ext b = Returns rgba →
  runSync md (stripAlpha rgba) = Returns output →
  output !! 2 = Some ss →
  (∀ i, i < SLOTS → (SCORE_THRESHOLD <? slotScore ss i)%float = false) →
  (∀ cs, detections cs ss = []) ∧
  (∀ w', postProcess v output w' =
         (Returns tt, (addLog "No objects detected > 40%" w').2)) ∧
  (runInference v ext uri w).1 = Returns tt ∧
  console (runInference v ext uri w).2 =
    console w ++ [runningMessage v] ++
    match v with
    | Gallery => ["Inference Done! Output tensors: " +:+
                  pretty (length output)]
    | Camera => []
    end ++ ["No objects detected > 40%"] ∧
  processing (runInference v ext uri w).2 = false ∧
  (∀ e, "No objects detected > 40%" ≠ "Inference Error: " +:+ e).
Proof.
  intros Hm Hu Hb Hrgba Hout Hss Hnone.
  apply keptSlots_none in Hnone.
  assert (∀ w', postProcess v output w' =
            (Returns tt, (addLog "No objects detected > 40%" w').2))
    as Hpost.
  { intros w'. unfold postProcess. rewrite Hss.
    by apply reportDetections_none. }
  split; [intros cs; unfold detections; by rewrite Hnone|].
  split; [done|].
  erewrite runInference_inferred by done.
  unfold try_catch.
  erewrite (bind_returns (postProcess _ _)) by apply Hpost.
  split; [done|]. split; [|split; [done|]].
  - destruct v; cbn [snd console processing addLog setProcessing
                     inferredWorld decodedWorld recordCalls];
      rewrite <- ?app_assoc; done.
  - intros e He. discriminate He.
Qed.


(** C7: the outcome of post-processing and the lines it writes are a
    function of the two arrays alone: there is one list of lines that
    it writes from every state of the screen, so that a second run on
    the same arrays writes the same lines again, in the same order. *)
Theorem postProcess_deterministic v (cs ss : TypedArray) :
  ∃ lines : list string,
    lines = reportLines v cs ss ∧
    (∀ w, reportDetections v (Some cs) (Some ss) w =
          (Returns tt, logAll lines w)) ∧
    (∀ w, console (reportDetections v (Some cs) (Some ss) w).2 =
          console w ++ lines) ∧
    (∀ w, console
            (reportDetections v (Some cs) (Some ss)
               (reportDetections v (Some cs) (Some ss) w).2).2 =
          console w ++ lines ++ lines).
Proof.
  exists (reportLines v cs ss).
  split; [done|]. split; [apply reportDetections_run|]. split.
  - intros w. rewrite reportDetections_run. apply logAll_console.
  - intros w. rewrite !reportDetections_run. cbn [snd].
    rewrite !logAll_console. by rewrite <- app_assoc.
Qed.

(** C8: a call of [addLog] puts one entry, the time in brackets and the
    message, in front of the log and leaves the entries that were there
    as they were and in their order; so do several calls in a row, and
    every operation of the screen only adds entries in front. *)
Theorem addLog_prepends (msg : string) (w : World) :
  (addLog msg w).1 = Returns tt ∧
  logs (addLog msg w).2 =
    ("[" +:+ toLocaleTimeString (dates w) +:+ "] " +:+ msg) :: logs w ∧
  length (logs (addLog msg w).2) = S (length (logs w)) ∧
  (∀ k, logs (addLog msg w).2 !! S k = logs w !! k) ∧
  (∀ msgs, logs (logAll msgs w) = entriesFrom (dates w) msgs ++ logs w ∧
           length (entriesFrom (dates w) msgs) = length msgs) ∧
  (∀ v ext uri, logs w `suffix_of` logs (runInference v ext uri w).2) ∧
  (∀ ext, logs w `suffix_of` logs (pickAndDetect ext w).2) ∧
  (∀ ready ext, logs w `suffix_of` logs (captureAndDetect ready ext w).2) ∧
  (∀ v ext, logs w `suffix_of` logs (load v ext w).2).
Proof.
  repeat split.
  - apply logAll_logs.
  - apply entriesFrom_length.
  - intros v ext uri. apply grows_runInference.
  - intros ext. apply grows_pickAndDetect.
  - intros ready ext. apply grows_captureAndDetect.
  - intros v ext. apply grows_load.
Qed.

(** C9: the output buffer has the fixed length 307200 whatever the
    length of the decoded buffer; the pixels past the first [320 * 320]
    are dropped; a position whose sample is missing from the input (the
    tail after the last pixel, or the end of a last pixel cut short)
    holds zero; every other position holds its sample.  No length makes
    the step fail: whatever the decoded buffer is, a run that gets it
    goes on to call the detector on the reduced buffer. *)
Theorem stripAlpha_fixed_buffer (rgba : list byte) :
  Z.of_nat (length (stripAlpha rgba)) = 307200%Z ∧
  stripAlpha rgba = stripAlpha (take (4 * (320 * 320)) rgba) ∧
  (∀ j, j < RGB_SIZE → length rgba ≤ 4 * (j / 3) + j mod 3 →
     stripAlpha rgba !! j = Some x00) ∧
  (∀ j, j < RGB_SIZE → 4 * (j / 3) + j mod 3 < length rgba →
     stripAlpha rgba !! j = rgba !! (4 * (j / 3) + j mod 3)) ∧
  (∀ v ext uri w md u b,
     model w = Some md →
     manipulateAsync ext uri = Returns u →
     fileBase64 ext u = Returns b →
     jpegDecode ext b = Returns rgba →
     calls (runInference v ext uri w).2 =
     calls w ++ [ManipulateAsync uri; FileBase64 u; JpegDecode b;
                 RunSync (stripAlpha rgba)]).
Proof.
  split; [rewrite stripAlpha_length; unfold RGB_SIZE; lia|].
  split; [|split; [|split]]; [| | |intros; by eapply runInference_calls].
  - apply list_eq. intros j.
    rewrite !stripAlpha_lookup, length_take. unfold sample.
    pose proof (Nat.div_mod_eq j 3) as Hdm.
    pose proof (Nat.mod_upper_bound j 3) as Hmod.
    case_bool_decide as Hj; [|done].
    assert (4 * (j / 3) + j mod 3 < 4 * (320 * 320))
      by (unfold RGB_SIZE in Hj; lia).
    rewrite lookup_take_lt by lia.
    repeat case_bool_decide; try done; lia.
  - intros j Hj Hlen.
    rewrite stripAlpha_lookup, bool_decide_eq_true_2 by done.
    case_bool_decide; [|done].
    unfold sample. by rewrite lookup_ge_None_2.
  - intros j Hj Hlen.
    rewrite stripAlpha_lookup, bool_decide_eq_true_2 by done.
    rewrite bool_decide_eq_true_2 by lia.
    unfold sample.
    destruct (lookup_lt_is_Some_2 rgba _ Hlen) as [b Hb].
    by rewrite Hb.
Qed.

(** C10: the loop visits the slots 0 to 24 whatever the length of the
    score array.  On an array of fewer than 25 scores post-processing
    returns normally, and what it does is what it does on the array
    filled up to 25 slots with [NaN]: a slot past the end reads as
    [NaN], which is not above the threshold, so the body does nothing
    there, and the lines written are those of the passing slots inside
    the array, in slot order (or the line for no detection).  Scores
    past slot 24 are not looked at: whatever follows the 25 slots,
    post-processing does the same. *)
Theorem short_score_array v (cs ss : TypedArray) (w : World) :
  length ss < SLOTS →
  (∀ i, length ss ≤ i →
     slotScore ss i = Js.NaN ∧ passes ss i = false ∧ (i ∉ keptSlots ss) ∧
     ∀ classes count w',
       slotBody v classes (Some ss) i count w' = (Returns count, w')) ∧
  keptSlots ss = keptSlots (ss ++ replicate (SLOTS - length ss) Js.NaN) ∧
  (∀ more : TypedArray,
     keptSlots (ss ++ replicate (SLOTS - length ss) Js.NaN ++ more) =
     keptSlots ss) ∧
  (reportDetections v (Some cs) (Some ss) w).1 = Returns tt ∧
  (∀ i, i ∈ keptSlots ss → i < length ss) ∧
  length (detections cs ss) ≤ length ss ∧
  console (reportDetections v (Some cs) (Some ss) w).2 =
    console w ++
    match List.filter (passes ss) (seq 0 (length ss)) with
    | [] => ["No objects detected > 40%"]
    | slots =>
        (λ i, foundMessage v (labelOf (slotClass cs i)) (slotScore ss i))
        <$> slots
    end ∧
  reportDetections v (Some cs) (Some ss) w =
    reportDetections v (Some cs)
      (Some (ss ++ replicate (SLOTS - length ss) Js.NaN)) w ∧
  (∀ more : TypedArray,
     reportDetections v (Some cs)
       (Some (ss ++ replicate (SLOTS - length ss) Js.NaN ++ more)) w =
     reportDetections v (Some cs) (Some ss) w).
Proof.
  intros Hshort.
  assert (∀ i, length ss ≤ i → slotScore ss i = Js.NaN) as Hnan.
  { intros i Hi. unfold slotScore. by rewrite lookup_ge_None_2. }
  assert (∀ i, length ss ≤ i → passes ss i = false) as Hfail.
  { intros i Hi. unfold passes. by rewrite Hnan. }
  assert (∀ i, i ∈ keptSlots ss → i < length ss) as Hin.
  { intros i [_ Hp]%keptSlots_spec.
    destruct (decide (i < length ss)); [done|].
    rewrite Hfail in Hp by lia. done. }
  assert (∀ i, i < SLOTS →
            slotScore ss i =
            slotScore (ss ++ replicate (SLOTS - length ss) Js.NaN) i)
    as Hpad.
  { intros i Hi. unfold slotScore.
    destruct (decide (i < length ss)).
    + by rewrite lookup_app_l.
    + rewrite lookup_app_r, lookup_replicate_2 by lia.
      by rewrite lookup_ge_None_2 by lia. }
  assert (∀ more : TypedArray, ∀ i, i < SLOTS →
            slotScore
              (ss ++ replicate (SLOTS - length ss) Js.NaN ++ more) i =
            slotScore ss i) as Hmore.
  { intros more i Hi. unfold slotScore.
    destruct (decide (i < length ss)).
    + by rewrite lookup_app_l.
    + rewrite lookup_app_r by lia.
      rewrite lookup_app_l by (rewrite length_replicate; lia).
      rewrite lookup_replicate_2 by lia.
      by rewrite lookup_ge_None_2 by lia. }
  split; [|split; [|split; [|split; [|split; [|split; [|split;
    [|split]]]]]]].
  - intros i Hi. split; [by apply Hnan|]. split; [by apply Hfail|].
    split; [intros Hk%Hin; lia|].
    intros classes count w'. apply slotBody_fail. by apply Hfail.
  - by apply keptSlots_ext.
  - intros more. apply keptSlots_ext, Hmore.
  - by rewrite reportDetections_run.
  - done.
  - unfold detections. rewrite length_fmap.
    assert (NoDup (keptSlots ss)) as Hnd.
    { apply NoDup_ListNoDup. unfold keptSlots.
      apply List.NoDup_filter, List.seq_NoDup. }
    assert (keptSlots ss ⊆ seq 0 (length ss)) as Hsub.
    { intros i Hi. apply elem_of_seq. apply Hin in Hi. lia. }
    pose proof (submseteq_length _ _ (NoDup_submseteq _ _ Hnd Hsub)) as Hle.
    by rewrite length_seq in Hle.
  - rewrite reportDetections_console. f_equal.
    rewrite <- (keptSlots_short ss) by lia.
    destruct (keptSlots ss) as [|i kept] eqn:Hk.
    + by apply reportLines_none.
    + rewrite <- Hk. apply reportLines_kept. by rewrite Hk.
  - rewrite !reportDetections_run. f_equal.
    f_equal. by apply reportLines_ext.
  - intros more. rewrite !reportDetections_run. f_equal.
    f_equal. apply reportLines_ext, Hmore.
Qed.

(** ** Effects, step by step *)

Section Steps.
Context (R : World → World → Prop) `{!PreOrder R}.

Lemma steps_ret {A} (a : A) : steps R (mret a).
Proof. intros w. reflexivity. Qed.

Lemma steps_throw {A} e : steps R (@throw A e).
Proof. intros w. reflexivity. Qed.

Lemma steps_bind {A B} (m : Eff A) (k : A → Eff B) :
  steps R m → (∀ a, steps R (k a)) → steps R (m ≫= k).
Proof.
  intros Hm Hk w. unfold mbind, Eff_bind.
  specialize (Hm w). destruct (m w) as [[a|e] w']; cbn [snd] in *.
  - etrans; [exact Hm | apply Hk].
  - exact Hm.
Qed.

Lemma steps_try_catch {A} (m : Eff A) (h : string → Eff A) :
  steps R m → (∀ e, steps R (h e)) → steps R (try_catch m h).
Proof.
  intros Hm Hh w. unfold try_catch.
  specialize (Hm w). destruct (m w) as [[a|e] w']; cbn [snd] in *.
  - exact Hm.
  - etrans; [exact Hm | apply Hh].
Qed.

Lemma steps_for_loop {S} idx (body : nat → S → Eff S) s :
  (∀ i s', steps R (body i s')) → steps R (for_loop idx body s).
Proof.
  intros Hbody. revert s.
  induction idx as [|i idx IH]; intros s; cbn [for_loop].
  - apply steps_ret.
  - apply steps_bind; [apply Hbody | apply IH].
Qed.

Lemma steps_runActions l :
  (∀ a, steps R (act a)) → ∀ w, R w (runActions l w).
Proof.
  intros Hact. unfold runActions.
  induction l as [|a l IH] using rev_ind; intros w.
  - reflexivity.
  - rewrite foldl_app. cbn [foldl]. etrans; [apply IH | apply Hact].
Qed.

End Steps.

#[local] Instance keeps_preorder (I : World → Prop) : PreOrder (keeps I).
Proof. split; [intros w H; exact H | intros w1 w2 w3 H1 H2 H; auto]. Qed.

#[local] Instance sameModel_preorder : PreOrder sameModel.
Proof.
  split.
  - intros w. by repeat split.
  - intros w1 w2 w3 (H1 & H2 & H3) (H4 & H5 & H6).
    repeat split; congruence.
Qed.

(** Take a composed effect apart; [prim] closes its single steps. *)
Ltac steps_with prim :=
  repeat lazymatch goal with
    | |- steps _ (_ ≫= _) => refine (steps_bind _ _ _ _ _); [|intros ?]
    | |- steps _ (try_catch _ _) =>
        refine (steps_try_catch _ _ _ _ _); [|intros ?]
    | |- steps _ (for_loop _ _ _) =>
        refine (steps_for_loop _ _ _ _ _); intros ? ?
    | |- steps _ (mret _) => refine (steps_ret _ _)
    | |- steps _ (throw _) => refine (steps_throw _ _)
    | |- steps _ (match ?x with _ => _ end) => destruct x
    | |- steps _ _ => prim
    end.

(** ** What a detection run leaves alone *)

Lemma sameModel_reportDetections v classes scores :
  steps sameModel (reportDetections v classes scores).
Proof.
  unfold reportDetections, slotBody, element.
  steps_with ltac:(by intros ?w).
Qed.

Lemma sameModel_runInference v ext uri0 :
  steps sameModel (runInference v ext uri0).
Proof.
  unfold runInference, postProcess. cbv zeta.
  steps_with ltac:(first [apply sameModel_reportDetections | by intros ?w]).
Qed.

Lemma sameModel_pickAndDetect ext : steps sameModel (pickAndDetect ext).
Proof.
  unfold pickAndDetect.
  steps_with ltac:(first [apply sameModel_runInference | by intros ?w]).
Qed.

Lemma sameModel_captureAndDetect ready ext :
  steps sameModel (captureAndDetect ready ext).
Proof.
  unfold captureAndDetect. cbv zeta.
  steps_with ltac:(first [apply sameModel_runInference | by intros ?w]).
Qed.

(** ** The paths of [pickAndDetect], [captureAndDetect] and [load] *)

Lemma try_catch_bind_returns {A B} (m : Eff A) (k : A → Eff B) h w a w' :
  m w = (Returns a, w') →
  try_catch (m ≫= k) h w = try_catch (k a) h w'.
Proof. intros H. unfold try_catch. by rewrite (bind_returns _ _ _ _ _ H). Qed.

Lemma try_catch_bind_throws {A B} (m : Eff A) (k : A → Eff B) h w e w' :
  m w = (Throws e, w') →
  try_catch (m ≫= k) h w = h e w'.
Proof. intros H. unfold try_catch. by rewrite (bind_throws _ _ _ _ _ H). Qed.

Lemma pickAndDetect_canceled ext w md :
  model w = Some md →
  launchImageLibraryAsync ext = Returns Canceled →
  pickAndDetect ext w = (Returns tt, recordCalls [LaunchImageLibrary] w).
Proof.
  intros Hm Hpick. unfold pickAndDetect.
  erewrite (bind_returns getModel) by reflexivity.
  rewrite Hm.
  erewrite bind_returns.
  2:{
    erewrite try_catch_bind_returns
      by (unfold extern; rewrite Hpick; reflexivity).
    reflexivity. }
  reflexivity.
Qed.

Lemma pickAndDetect_throws ext w md e :
  model w = Some md →
  launchImageLibraryAsync ext = Throws e →
  pickAndDetect ext w =
  (Returns tt,
   (setProcessing false
      (addLog ("Pick Error: " +:+ e)
         (recordCalls [LaunchImageLibrary] w)).2).2).
Proof.
  intros Hm Hpick. unfold pickAndDetect.
  erewrite (bind_returns getModel) by reflexivity.
  rewrite Hm.
  erewrite bind_returns.
  2:{
    erewrite try_catch_bind_throws
      by (unfold extern; rewrite Hpick; reflexivity).
    reflexivity. }
  reflexivity.
Qed.

Lemma pickAndDetect_picked ext w md u :
  model w = Some md →
  launchImageLibraryAsync ext = Returns (Picked u) →
  pickAndDetect ext w = runInference Gallery ext u (pickedWorld u w).
Proof.
  intros Hm Hpick. unfold pickAndDetect.
  erewrite (bind_returns getModel) by reflexivity.
  rewrite Hm.
  erewrite bind_returns.
  2:{
    erewrite try_catch_bind_returns
      by (unfold extern; rewrite Hpick; reflexivity).
    reflexivity. }
  reflexivity.
Qed.

Lemma captureAndDetect_not_ready ext w md :
  model w = Some md →
  captureAndDetect false ext w = (Returns tt, (addLog "Camera not ready" w).2).
Proof.
  intros Hm. unfold captureAndDetect.
  erewrite (bind_returns getModel) by reflexivity.
  by rewrite Hm.
Qed.

Lemma captureAndDetect_throws ext w md e :
  model w = Some md →
  takePhoto ext = Throws e →
  captureAndDetect true ext w =
  (Returns tt,
   (setProcessing false
      (addLog ("Capture Error: " +:+ e) (capturingWorld w)).2).2).
Proof.
  intros Hm Hphoto. unfold captureAndDetect.
  erewrite (bind_returns getModel) by reflexivity.
  rewrite Hm. cbn [negb].
  erewrite bind_returns.
  2:{
    erewrite try_catch_bind_returns by reflexivity.
    erewrite try_catch_bind_returns by apply addLog_eta.
    erewrite try_catch_bind_throws
      by (unfold extern; rewrite Hphoto; reflexivity).
    reflexivity. }
  reflexivity.
Qed.

Lemma captureAndDetect_taken ext w md path :
  model w = Some md →
  takePhoto ext = Returns path →
  captureAndDetect true ext w =
  runInference Camera ext ("file://" +:+ path) (capturedWorld path w).
Proof.
  intros Hm Hphoto. unfold captureAndDetect.
  erewrite (bind_returns getModel) by reflexivity.
  rewrite Hm. cbn [negb].
  erewrite bind_returns.
  2:{
    erewrite try_catch_bind_returns by reflexivity.
    erewrite try_catch_bind_returns by apply addLog_eta.
    erewrite try_catch_bind_returns
      by (unfold extern; rewrite Hphoto; reflexivity).
    reflexivity. }
  reflexivity.
Qed.

Lemma load_no_uri v ext w :
  noUri (modelUri w) = true → load v ext w = (Returns tt, w).
Proof.
  intros Hu. unfold load.
  erewrite (bind_returns getModelUri) by reflexivity.
  by rewrite Hu.
Qed.

(** [load] up to the answer of the loader. *)
Lemma load_started v ext w uri0 :
  modelUri w = Some uri0 → uri0 ≠ "" →
  load v ext w =
  try_catch
    (m ← extern (LoadTensorflowModel uri0) (loadTensorflowModel ext uri0);
     addLog "Model loaded! Warming up...";;
     try_catch
       (extern (RunSync (replicate RGB_SIZE x00))
               (runSync m (replicate RGB_SIZE x00));;
        addLog "Warmup complete.")
       (fun e => console_error e);;
     setModel m;;
     setModelState loaded)
    (fun e => addLog ("Error loading model: " +:+ e);; setModelState error)
    (addLog (loadingMessage v uri0) (setModelState loading w).2).2.
Proof.
  intros Hu Hne. unfold load.
  erewrite (bind_returns getModelUri) by reflexivity.
  rewrite Hu. cbn [noUri default].
  apply String.eqb_neq in Hne. rewrite Hne. cbv zeta.
  erewrite try_catch_bind_returns by reflexivity.
  erewrite try_catch_bind_returns by apply addLog_eta.
  reflexivity.
Qed.

Lemma load_fails v ext w uri0 e :
  modelUri w = Some uri0 → uri0 ≠ "" →
  loadTensorflowModel ext uri0 = Throws e →
  load v ext w =
  (Returns tt,
   (setModelState error
      (addLog ("Error loading model: " +:+ e)
         (recordCalls [LoadTensorflowModel uri0]
            (addLog (loadingMessage v uri0)
               (setModelState loading w).2).2)).2).2).
Proof.
  intros Hu Hne Hload.
  rewrite (load_started _ _ _ _ Hu Hne).
  erewrite try_catch_bind_throws
    by (unfold extern; rewrite Hload; reflexivity).
  reflexivity.
Qed.

Lemma load_warm v ext w uri0 m out :
  modelUri w = Some uri0 → uri0 ≠ "" →
  loadTensorflowModel ext uri0 = Returns m →
  runSync m (replicate RGB_SIZE x00) = Returns out →
  load v ext w =
  (Returns tt,
   (setModelState loaded
      (setModel m
         (addLog "Warmup complete." (warmingWorld v uri0 w)).2).2).2).
Proof.
  intros Hu Hne Hload Hrun.
  rewrite (load_started _ _ _ _ Hu Hne).
  erewrite try_catch_bind_returns
    by (unfold extern; rewrite Hload; reflexivity).
  erewrite try_catch_bind_returns by apply addLog_eta.
  unfold try_catch at 1.
  erewrite (bind_returns (try_catch _ _)).
  2:{ erewrite try_catch_bind_returns
        by (unfold extern; rewrite Hrun; reflexivity).
      reflexivity. }
  reflexivity.
Qed.

Lemma load_cold v ext w uri0 m e :
  modelUri w = Some uri0 → uri0 ≠ "" →
  loadTensorflowModel ext uri0 = Returns m →
  runSync m (replicate RGB_SIZE x00) = Throws e →
  load v ext w =
  (Returns tt,
   (setModelState loaded
      (setModel m (console_error e (warmingWorld v uri0 w)).2).2).2).
Proof.
  intros Hu Hne Hload Hrun.
  rewrite (load_started _ _ _ _ Hu Hne).
  erewrite try_catch_bind_returns
    by (unfold extern; rewrite Hload; reflexivity).
  erewrite try_catch_bind_returns by apply addLog_eta.
  unfold try_catch at 1.
  erewrite (bind_returns (try_catch _ _)).
  2:{ erewrite try_catch_bind_throws
        by (unfold extern; rewrite Hrun; reflexivity).
      reflexivity. }
  reflexivity.
Qed.

(** ** What every operation keeps *)

#[local] Instance callsGrow_preorder : PreOrder callsGrow.
Proof. unfold callsGrow. split; [by intros w | intros w1 w2 w3 ??; by etrans]. Qed.

#[local] Instance sameImage_preorder : PreOrder sameImage.
Proof. unfold sameImage. split; [by intros w | intros w1 w2 w3 ??; congruence]. Qed.

(** The single steps, for each of the relations. *)
Lemma callsGrow_extern {A} c (r : Result A) : steps callsGrow (extern c r).
Proof. intros w. by apply prefix_app_r. Qed.

Lemma keeps_shaped_extern {A} c (r : Result A) :
  shapeOk c → steps (keeps shaped) (extern c r).
Proof.
  intros Hc w Hw. unfold shaped. cbn [extern recordCalls calls snd].
  apply Forall_app. split; [exact Hw|]. by constructor.
Qed.

Lemma entriesFrom_snoc n msgs msg :
  entriesFrom n (msgs ++ [msg]) =
  logEntry (n + length msgs) msg :: entriesFrom n msgs.
Proof.
  revert n. induction msgs as [|m msgs IH]; intros n; cbn [entriesFrom app].
  - by rewrite Nat.add_0_r.
  - rewrite IH. cbn [length app]. by rewrite Nat.add_succ_comm.
Qed.

Lemma keeps_synced_addLog msg : steps (keeps synced) (addLog msg).
Proof.
  intros w [Hd Hl]. unfold synced. cbn [addLog snd dates console logs].
  rewrite length_app, entriesFrom_snoc, Hd, Hl. cbn [length].
  split; [lia | done].
Qed.

Ltac unfold_operations :=
  unfold act, assetsEffect, load, pickAndDetect, captureAndDetect,
    runInference, postProcess, reportDetections, slotBody, element;
  cbv zeta.

Lemma callsGrow_runInference v ext uri0 :
  steps callsGrow (runInference v ext uri0).
Proof.
  unfold_operations.
  steps_with ltac:(first [apply callsGrow_extern
                         | intros ?w; unfold callsGrow; cbn; reflexivity]).
Qed.

Lemma sameImage_runInference v ext uri0 :
  steps sameImage (runInference v ext uri0).
Proof. unfold_operations. steps_with ltac:(by intros ?w). Qed.

Lemma keeps_synced_act a : steps (keeps synced) (act a).
Proof.
  unfold_operations.
  steps_with ltac:(first [apply keeps_synced_addLog
                         | intros ?w ?Hw; exact Hw]).
Qed.

Lemma keeps_shaped_act a : steps (keeps shaped) (act a).
Proof.
  unfold_operations.
  steps_with ltac:(first
    [ apply keeps_shaped_extern; cbn [shapeOk];
      first [exact I | apply stripAlpha_length | apply length_replicate]
    | intros ?w ?Hw; exact Hw ]).
Qed.

Lemma sameModel_loadedHasModel w w' :
  sameModel w w' → keeps loadedHasModel w w'.
Proof.
  intros (Hm & Hs & _) Hw. unfold loadedHasModel.
  rewrite Hm, Hs. exact Hw.
Qed.

Lemma noUri_false u :
  noUri u = false → ∃ uri0, u = Some uri0 ∧ uri0 ≠ "".
Proof.
  destruct u as [uri0|]; [|done]. cbn [noUri]. intros H.
  exists uri0. split; [done|]. by apply String.eqb_neq.
Qed.

Lemma keeps_loadedHasModel_load v ext :
  steps (keeps loadedHasModel) (load v ext).
Proof.
  intros w Hw.
  destruct (noUri (modelUri w)) eqn:Hno.
  - by rewrite load_no_uri.
  - apply noUri_false in Hno as (uri0 & Hu & Hne).
    destruct (loadTensorflowModel ext uri0) as [m|e] eqn:Hload.
    + destruct (runSync m (replicate RGB_SIZE x00)) as [out|e] eqn:Hrun.
      * erewrite load_warm by done. intros _. by eexists.
      * erewrite load_cold by done. intros _. by eexists.
    + erewrite load_fails by done. intros Hs. discriminate Hs.
Qed.

Lemma keeps_loadedHasModel_act a : steps (keeps loadedHasModel) (act a).
Proof.
  destruct a as [assets|v ext|ext|ready ext]; cbn [act].
  - intros w Hw. destruct assets as [[|a assets]|]; exact Hw.
  - apply keeps_loadedHasModel_load.
  - intros w. apply sameModel_loadedHasModel, sameModel_pickAndDetect.
  - intros w. apply sameModel_loadedHasModel, sameModel_captureAndDetect.
Qed.

(** ** Exceptions and the busy flag *)

Lemma safe_ret {A} (a : A) : safe (mret a).
Proof. intros w. by eexists. Qed.

Lemma safe_bind {A B} (m : Eff A) (k : A → Eff B) :
  safe m → (∀ a, safe (k a)) → safe (m ≫= k).
Proof.
  intros Hm Hk w. unfold mbind, Eff_bind.
  destruct (Hm w) as [a Ha]. destruct (m w) as [r w']. cbn [fst] in Ha.
  subst r. apply Hk.
Qed.

Lemma safe_try_catch {A} (m : Eff A) (h : string → Eff A) :
  (∀ e, safe (h e)) → safe (try_catch m h).
Proof.
  intros Hh w. unfold try_catch.
  destruct (m w) as [[a|e] w']; [by eexists | apply Hh].
Qed.

Ltac safe_steps :=
  repeat lazymatch goal with
    | |- safe (_ ≫= _) => apply safe_bind; [|intros ?]
    | |- safe (try_catch _ _) => apply safe_try_catch; intros ?
    | |- safe (match ?x with _ => _ end) => destruct x
    | |- safe _ => intros ?w; by eexists
    end.

Lemma safe_runInference v ext uri0 : safe (runInference v ext uri0).
Proof. unfold runInference. safe_steps. Qed.

Lemma safe_act a : safe (act a).
Proof.
  unfold act, assetsEffect, load, pickAndDetect, captureAndDetect.
  cbv zeta.
  repeat lazymatch goal with
    | |- safe (runInference _ _ _) => apply safe_runInference
    | |- safe (_ ≫= _) => apply safe_bind; [|intros ?]
    | |- safe (try_catch _ _) => apply safe_try_catch; intros ?
    | |- safe (match ?x with _ => _ end) => destruct x
    | |- safe _ => intros ?w; by eexists
    end.
Qed.

Lemma ends_try_catch (P : World → Prop) {A} (m : Eff A) h :
  ends_ok P m → (∀ e, ends P (h e)) → ends P (try_catch m h).
Proof.
  intros Hm Hh w. unfold try_catch.
  destruct (m w) as [[a|e] w'] eqn:Hw; [by eapply Hm | apply Hh].
Qed.

Lemma ends_ok_bind (P : World → Prop) {A B} (m : Eff A) (k : A → Eff B) :
  (∀ a, ends_ok P (k a)) → ends_ok P (m ≫= k).
Proof.
  intros Hk w b w'. unfold mbind, Eff_bind.
  destruct (m w) as [[a|e] w1]; [apply Hk | done].
Qed.

(** A run that has a model ends with the busy flag cleared. *)
Lemma runInference_clears_processing v ext uri0 w md :
  model w = Some md → processing (runInference v ext uri0 w).2 = false.
Proof.
  intros Hm. unfold runInference.
  erewrite try_catch_bind_returns by reflexivity.
  rewrite Hm. cbv zeta.
  apply (ends_try_catch (λ w', processing w' = false)).
  - repeat (apply ends_ok_bind; intros ?).
    intros w1 r w2 H. by injection H as _ <-.
  - by intros e w1.
Qed.

Lemma pickAndDetect_clears_processing ext w md :
  model w = Some md →
  launchImageLibraryAsync ext ≠ Returns Canceled →
  processing (pickAndDetect ext w).2 = false.
Proof.
  intros Hm Hpick.
  destruct (launchImageLibraryAsync ext) as [[|u]|e] eqn:Hres; [done| |].
  - erewrite pickAndDetect_picked by done.
    by eapply runInference_clears_processing.
  - by erewrite pickAndDetect_throws.
Qed.

Lemma captureAndDetect_clears_processing ext w md :
  model w = Some md → processing (captureAndDetect true ext w).2 = false.
Proof.
  intros Hm.
  destruct (takePhoto ext) as [path|e] eqn:Hres.
  - erewrite captureAndDetect_taken by done.
    by eapply runInference_clears_processing.
  - by erewrite captureAndDetect_throws.
Qed.

Lemma keeps_idle_act a :
  steps (keeps (λ w, processing w = false)) (act a).
Proof.
  destruct a as [assets|v ext|ext|ready ext]; cbn [act].
  - intros w Hw. destruct assets as [[|a assets]|]; exact Hw.
  - unfold_operations. steps_with ltac:(intros ?w ?Hw; exact Hw).
  - intros w Hw. destruct (model w) as [md|] eqn:Hm.
    + destruct (launchImageLibraryAsync ext) as [[|u]|e] eqn:Hres.
      * by erewrite pickAndDetect_canceled.
      * by eapply pickAndDetect_clears_processing; [|rewrite Hres].
      * by eapply pickAndDetect_clears_processing; [|rewrite Hres].
    + by rewrite pickAndDetect_no_model.
  - intros w Hw. destruct (model w) as [md|] eqn:Hm.
    + destruct ready.
      * by eapply captureAndDetect_clears_processing.
      * by erewrite captureAndDetect_not_ready.
    + by rewrite captureAndDetect_no_model.
Qed.

(** ** A stage that fails *)

Lemma runInference_resize_throws v ext uri0 w md e :
  model w = Some md →
  manipulateAsync ext uri0 = Throws e →
  runInference v ext uri0 w =
  (addLog ("Inference Error: " +:+ e);; setProcessing false)
    (recordCalls [ManipulateAsync uri0] w).
Proof.
  intros Hm Hu. unfold runInference.
  erewrite try_catch_bind_returns by reflexivity.
  rewrite Hm.
  erewrite try_catch_bind_throws
    by (unfold extern; rewrite Hu; reflexivity).
  reflexivity.
Qed.

Lemma runInference_read_throws v ext uri0 w md u e :
  model w = Some md →
  manipulateAsync ext uri0 = Returns u →
  fileBase64 ext u = Throws e →
  runInference v ext uri0 w =
  (addLog ("Inference Error: " +:+ e);; setProcessing false)
    (recordCalls [FileBase64 u] (recordCalls [ManipulateAsync uri0] w)).
Proof.
  intros Hm Hu Hb. unfold runInference.
  erewrite try_catch_bind_returns by reflexivity.
  rewrite Hm.
  erewrite try_catch_bind_returns
    by (unfold extern; rewrite Hu; reflexivity).
  erewrite try_catch_bind_throws
    by (unfold extern; rewrite Hb; reflexivity).
  reflexivity.
Qed.

Lemma runInference_decode_throws v ext uri0 w md u b e :
  model w = Some md →
  manipulateAsync ext uri0 = Returns u →
  fileBase64 ext u = Returns b →
  jpegDecode ext b = Throws e →
  runInference v ext uri0 w =
  (addLog ("Inference Error: " +:+ e);; setProcessing false)
    (recordCalls [JpegDecode b]
       (recordCalls [FileBase64 u] (recordCalls [ManipulateAsync uri0] w))).
Proof.
  intros Hm Hu Hb Hrgba. unfold runInference.
  erewrite try_catch_bind_returns by reflexivity.
  rewrite Hm.
  erewrite try_catch_bind_returns
    by (unfold extern; rewrite Hu; reflexivity).
  erewrite try_catch_bind_returns
    by (unfold extern; rewrite Hb; reflexivity).
  erewrite try_catch_bind_throws
    by (unfold extern; rewrite Hrgba; reflexivity).
  reflexivity.
Qed.

(** Without a third array, reading the first score throws. *)
Lemma postProcess_no_scores v output w :
  output !! 2 = None →
  postProcess v output w = (Throws (undefinedIndexError 0), w).
Proof.
  intros Hnone. unfold postProcess, reportDetections. rewrite Hnone.
  unfold SLOTS. cbn [seq for_loop].
  erewrite bind_throws; [reflexivity|].
  erewrite bind_throws; [reflexivity|].
  unfold slotBody.
  erewrite bind_throws; reflexivity.
Qed.

(** [load] with a location calls the loader first. *)
Lemma load_calls_loader v ext w uri0 :
  modelUri w = Some uri0 → uri0 ≠ "" →
  calls w ++ [LoadTensorflowModel uri0] `prefix_of` calls (load v ext w).2.
Proof.
  intros Hu Hne.
  destruct (loadTensorflowModel ext uri0) as [m|e] eqn:Hload.
  - destruct (runSync m (replicate RGB_SIZE x00)) as [out|e] eqn:Hrun.
    + erewrite load_warm by done.
      cbn [snd calls addLog setModelState setModel recordCalls
           warmingWorld].
      by apply prefix_app_r.
    + erewrite load_cold by done.
      cbn [snd calls addLog setModelState setModel console_error
           recordCalls warmingWorld].
      by apply prefix_app_r.
  - erewrite load_fails by done.
    by cbn [snd calls addLog setModelState recordCalls].
Qed.

(** The marks of a detection line are not the first letter of the
    line for no detection. *)
Lemma foundMessage_not_none v l x :
  foundMessage v l x ≠ "No objects detected > 40%".
Proof. destruct v; intros H; discriminate H. Qed.

(** ** Further properties of the screens *)

(** X1: in every state that the gallery screen reaches from its start,
    an enabled button means that a model is there and no run is going
    on, so that a press opens the picker as its first library call. *)
Theorem enabled_button_opens_picker (l : list Action) (ext : Externals) :
  pickDisabled (runActions l initialWorld) = false →
  is_Some (model (runActions l initialWorld)) ∧
  processing (runActions l initialWorld) = false ∧
  calls (runActions l initialWorld) ++ [LaunchImageLibrary]
    `prefix_of` calls (pickAndDetect ext (runActions l initialWorld)).2.
Proof.
  pose proof (steps_runActions (keeps loadedHasModel) l
                keeps_loadedHasModel_act initialWorld) as Hinv.
  generalize dependent (runActions l initialWorld). intros w Hinv Hen.
  unfold pickDisabled in Hen.
  apply orb_false_iff in Hen as [Hproc Hst].
  assert (is_Some (model w)) as [md Hm].
  { apply Hinv; [intros Hs; discriminate Hs|].
    destruct (modelState w); done. }
  split; [by eexists|]. split; [done|].
  destruct (launchImageLibraryAsync ext) as [[|u]|e] eqn:Hres.
  - by erewrite pickAndDetect_canceled.
  - erewrite pickAndDetect_picked by done.
    apply (callsGrow_runInference Gallery ext u (pickedWorld u w)).
  - by erewrite pickAndDetect_throws.
Qed.

(** X2: in every state that the camera screen reaches from its start,
    when it shows the camera with the capture button enabled a model is
    there; a press then takes a photo as its first library call when the
    camera's reference is set, and when it is not set the press logs
    ["Camera not ready"] and does nothing else. *)
Theorem camera_controls_take_photo (l : list Action)
    (hasPermission hasDevice : bool) (ext : Externals) :
  cameraScreen hasPermission hasDevice (runActions l initialWorld) =
    CameraControls false →
  is_Some (model (runActions l initialWorld)) ∧
  calls (runActions l initialWorld) ++ [TakePhoto]
    `prefix_of`
    calls (captureAndDetect true ext (runActions l initialWorld)).2 ∧
  captureAndDetect false ext (runActions l initialWorld) =
    (Returns tt, (addLog "Camera not ready" (runActions l initialWorld)).2) ∧
  calls (captureAndDetect false ext (runActions l initialWorld)).2 =
    calls (runActions l initialWorld) ∧
  console (captureAndDetect false ext (runActions l initialWorld)).2 =
    console (runActions l initialWorld) ++ ["Camera not ready"].
Proof.
  pose proof (steps_runActions (keeps loadedHasModel) l
                keeps_loadedHasModel_act initialWorld) as Hinv.
  generalize dependent (runActions l initialWorld). intros w Hinv Hscr.
  unfold cameraScreen in Hscr.
  destruct (negb hasPermission); [done|].
  destruct (negb hasDevice); [done|].
  destruct (negb (isLoaded (modelState w))) eqn:Hst; [done|].
  assert (is_Some (model w)) as [md Hm].
  { apply Hinv; [intros Hs; discriminate Hs|].
    destruct (modelState w); done. }
  split; [by eexists|]. split.
  - destruct (takePhoto ext) as [path|e] eqn:Hres.
    + erewrite captureAndDetect_taken by done.
      etrans; [|apply (callsGrow_runInference Camera)].
      unfold capturedWorld, capturingWorld.
      cbn [calls snd addLog setImageUri setProcessing recordCalls].
      reflexivity.
    + by erewrite captureAndDetect_throws.
  - by erewrite captureAndDetect_not_ready.
Qed.

(** X3: whatever the screen has done since its start, its log list is
    exactly the lines written to the console, each with its time in
    front, the newest first. *)
Theorem log_mirrors_console (l : list Action) :
  logs (runActions l initialWorld) =
    entriesFrom 0 (console (runActions l initialWorld)) ∧
  length (logs (runActions l initialWorld)) =
    length (console (runActions l initialWorld)).
Proof.
  assert (synced (runActions l initialWorld)) as [Hd Hl].
  { apply (steps_runActions (keeps synced) l keeps_synced_act).
    by split. }
  split; [done|]. by rewrite Hl, entriesFrom_length.
Qed.

(** X4: every call of the detector that the screen ever makes, the
    warm-up call of [load] and the call of a run alike, is on a buffer of
    exactly 320 * 320 * 3 = 307200 bytes. *)
Theorem detector_input_has_fixed_size (l : list Action) :
  Forall shapeOk (calls (runActions l initialWorld)) ∧
  Z.of_nat RGB_SIZE = 307200%Z.
Proof.
  split; [|unfold RGB_SIZE; lia].
  apply (steps_runActions (keeps shaped) l keeps_shaped_act).
  constructor.
Qed.

(** X5: after every effect and every press, run to its end, the busy
    flag is off: the spinner never stays on. *)
Theorem screen_is_idle_between_actions (l : list Action) :
  processing (runActions l initialWorld) = false.
Proof.
  by apply (steps_runActions (keeps (λ w, processing w = false)) l
              keeps_idle_act).
Qed.

(** X6: a run that has a model clears the busy flag whatever the
    libraries answer; so does a press on the gallery screen unless the
    user cancels the picker, and a press on the camera screen when the
    camera is there. *)
Theorem run_clears_busy_flag (w : World) (md : TensorflowModel) :
  model w = Some md →
  (∀ v ext uri0, processing (runInference v ext uri0 w).2 = false) ∧
  (∀ ext, launchImageLibraryAsync ext ≠ Returns Canceled →
          processing (pickAndDetect ext w).2 = false) ∧
  (∀ ext, processing (captureAndDetect true ext w).2 = false).
Proof.
  intros Hm. split; [|split].
  - intros v ext uri0. by eapply runInference_clears_processing.
  - intros ext. by eapply pickAndDetect_clears_processing.
  - intros ext. by eapply captureAndDetect_clears_processing.
Qed.

(** X7: no exception leaves an effect, a press or a run: whatever the
    libraries throw is caught inside. *)
Theorem no_exception_escapes (w : World) :
  (∀ a, (act a w).1 = Returns tt) ∧
  (∀ v ext uri0, (runInference v ext uri0 w).1 = Returns tt).
Proof.
  split.
  - intros a. destruct (safe_act a w) as [[] H]. exact H.
  - intros v ext uri0.
    destruct (safe_runInference v ext uri0 w) as [[] H]. exact H.
Qed.

(** X8: a press or a run never changes the model, the model's state or
    the model's location, whatever happens in it. *)
Theorem detection_keeps_the_model (w : World) :
  (∀ v ext uri0, sameModel w (runInference v ext uri0 w).2) ∧
  (∀ ext, sameModel w (pickAndDetect ext w).2) ∧
  (∀ ready ext, sameModel w (captureAndDetect ready ext w).2).
Proof.
  split; [|split].
  - intros v ext uri0. apply sameModel_runInference.
  - intros ext. apply sameModel_pickAndDetect.
  - intros ready ext. apply sameModel_captureAndDetect.
Qed.

(** X9: when a stage of a run throws, the run stops there: the later
    libraries are not called, the one line ["Inference Error: "] with the
    error is logged, whichever stage it was, and the line
    ["Running inference..."] is there only if the detector was
    reached. *)
Theorem failed_stage_stops_the_run v ext uri0 (w : World)
    (md : TensorflowModel) :
  model w = Some md →
  (∀ e, manipulateAsync ext uri0 = Throws e →
     calls (runInference v ext uri0 w).2 =
       calls w ++ [ManipulateAsync uri0] ∧
     console (runInference v ext uri0 w).2 =
       console w ++ ["Inference Error: " +:+ e]) ∧
  (∀ u e, manipulateAsync ext uri0 = Returns u →
     fileBase64 ext u = Throws e →
     calls (runInference v ext uri0 w).2 =
       calls w ++ [ManipulateAsync uri0; FileBase64 u] ∧
     console (runInference v ext uri0 w).2 =
       console w ++ ["Inference Error: " +:+ e]) ∧
  (∀ u b e, manipulateAsync ext uri0 = Returns u →
     fileBase64 ext u = Returns b →
     jpegDecode ext b = Throws e →
     calls (runInference v ext uri0 w).2 =
       calls w ++ [ManipulateAsync uri0; FileBase64 u; JpegDecode b] ∧
     console (runInference v ext uri0 w).2 =
       console w ++ ["Inference Error: " +:+ e]) ∧
  (∀ u b rgba e, manipulateAsync ext uri0 = Returns u →
     fileBase64 ext u = Returns b →
     jpegDecode ext b = Returns rgba →
     runSync md (stripAlpha rgba) = Throws e →
     calls (runInference v ext uri0 w).2 =
       calls w ++ [ManipulateAsync uri0; FileBase64 u; JpegDecode b;
                   RunSync (stripAlpha rgba)] ∧
     console (runInference v ext uri0 w).2 =
       console w ++ [runningMessage v; "Inference Error: " +:+ e]).
Proof.
  intros Hm. split; [|split; [|split]].
  - intros e Hu. erewrite runInference_resize_throws by done.
    unfold mbind, Eff_bind.
    by cbn [snd calls console addLog setProcessing recordCalls].
  - intros u e Hu Hb. erewrite runInference_read_throws by done.
    unfold mbind, Eff_bind.
    cbn [snd calls console addLog setProcessing recordCalls].
    by rewrite <- !app_assoc.
  - intros u b e Hu Hb Hrgba.
    erewrite runInference_decode_throws by done.
    unfold mbind, Eff_bind.
    cbn [snd calls console addLog setProcessing recordCalls].
    by rewrite <- !app_assoc.
  - intros u b rgba e Hu Hb Hrgba Hout.
    split; [by eapply runInference_calls|].
    by eapply runInference_detector_throws.
Qed.

(** X10: when the detector answers fewer than three arrays, reading the
    first score throws; the run logs that [TypeError] as its
    ["Inference Error: "] line, with no line about detections before it,
    and clears the busy flag. *)
Theorem too_few_output_arrays v ext uri0 (w : World) md u b rgba output :
  model w = Some md →
  manipulateAsync ext uri0 = Returns u →
  fileBase64 ext u = Returns b →
  jpegDecode ext b = Returns rgba →
  runSync md (stripAlpha rgba) = Returns output →
  output !! 2 = None →
  console (runInference v ext uri0 w).2 =
    console w ++ [runningMessage v] ++
    match v with
    | Gallery => ["Inference Done! Output tensors: " +:+
                  pretty (length output)]
    | Camera => []
    end ++ ["Inference Error: " +:+ undefinedIndexError 0] ∧
  processing (runInference v ext uri0 w).2 = false.
Proof.
  intros Hm Hu Hb Hrgba Hout Hnone.
  erewrite runInference_inferred by done.
  erewrite try_catch_bind_throws by (by apply postProcess_no_scores).
  unfold mbind, Eff_bind.
  destruct v;
    cbn [snd console processing addLog setProcessing inferredWorld
         decodedWorld recordCalls];
    by rewrite <- ?app_assoc.
Qed.

(** X11: when the loader throws, [load] ends in the state [error] with
    its two lines logged, the model that was there before is still
    there, and the detector is not warmed up. *)
Theorem load_failure_keeps_old_model v ext (w : World) uri0 e :
  modelUri w = Some uri0 → uri0 ≠ "" →
  loadTensorflowModel ext uri0 = Throws e →
  modelState (load v ext w).2 = error ∧
  model (load v ext w).2 = model w ∧
  console (load v ext w).2 =
    console w ++ [loadingMessage v uri0; "Error loading model: " +:+ e] ∧
  calls (load v ext w).2 = calls w ++ [LoadTensorflowModel uri0].
Proof.
  intros Hu Hne Hload. erewrite load_fails by done.
  cbn [snd modelState model console calls addLog setModelState
       recordCalls].
  by rewrite <- !app_assoc.
Qed.

(** X12: when the loader gives a model, [load] ends in the state
    [loaded] with that model, having warmed the detector up on 307200
    zero bytes; a warm-up that throws does not change that: its error
    goes to [console.error] only, and the line ["Warmup complete."] is
    left out. *)
Theorem load_success_tolerates_warmup_failure v ext (w : World) uri0 m :
  modelUri w = Some uri0 → uri0 ≠ "" →
  loadTensorflowModel ext uri0 = Returns m →
  modelState (load v ext w).2 = loaded ∧
  model (load v ext w).2 = Some m ∧
  calls (load v ext w).2 =
    calls w ++ [LoadTensorflowModel uri0;
                RunSync (replicate RGB_SIZE x00)] ∧
  (∀ out, runSync m (replicate RGB_SIZE x00) = Returns out →
     console (load v ext w).2 =
       console w ++ [loadingMessage v uri0; "Model loaded! Warming up...";
                     "Warmup complete."] ∧
     consoleErrors (load v ext w).2 = consoleErrors w) ∧
  (∀ e, runSync m (replicate RGB_SIZE x00) = Throws e →
     console (load v ext w).2 =
       console w ++ [loadingMessage v uri0;
                     "Model loaded! Warming up..."] ∧
     consoleErrors (load v ext w).2 = consoleErrors w ++ [e]).
Proof.
  intros Hu Hne Hload.
  destruct (runSync m (replicate RGB_SIZE x00)) as [out|e] eqn:Hrun.
  - erewrite load_warm by done.
    cbn [snd modelState model console consoleErrors calls addLog
         setModelState setModel recordCalls warmingWorld].
    rewrite <- !app_assoc.
    repeat split; done.
  - erewrite load_cold by done.
    cbn [snd modelState model console consoleErrors calls addLog
         setModelState setModel console_error recordCalls warmingWorld].
    rewrite <- !app_assoc.
    repeat split; try done.
    all: congruence.
Qed.

(** X13: the two effects in a row: when the asset's [localUri] is a
    non-empty string, the model is loaded from it; when it is [null] or
    empty, the model is loaded from the asset's [uri]; when that is
    empty too, the loader is not called and nothing but [modelUri]
    changes. *)
Theorem asset_uri_fallback (a : Asset) (rest : list Asset) v ext
    (w : World) :
  (∀ l, localUri a = Some l → l ≠ "" →
     calls w ++ [LoadTensorflowModel l]
       `prefix_of`
       calls ((assetsEffect (Some (a :: rest));; load v ext) w).2) ∧
  (localUri a = None ∨ localUri a = Some "" → uri a ≠ "" →
     calls w ++ [LoadTensorflowModel (uri a)]
       `prefix_of`
       calls ((assetsEffect (Some (a :: rest));; load v ext) w).2) ∧
  (localUri a = None ∨ localUri a = Some "" → uri a = "" →
     (assetsEffect (Some (a :: rest));; load v ext) w =
     setModelUri "" w).
Proof.
  split; [|split].
  - intros l Hl Hne.
    assert (orElse (localUri a) (uri a) = l) as Ho.
    { unfold orElse. rewrite Hl.
      destruct (String.eqb l "") eqn:He; [|done].
      by apply String.eqb_eq in He. }
    unfold assetsEffect. rewrite Ho.
    erewrite bind_returns by reflexivity.
    exact (load_calls_loader v ext (setModelUri l w).2 l eq_refl Hne).
  - intros Hl Hne.
    assert (orElse (localUri a) (uri a) = uri a) as Ho
      by (unfold orElse; by destruct Hl as [-> | ->]).
    unfold assetsEffect. rewrite Ho.
    erewrite bind_returns by reflexivity.
    exact (load_calls_loader v ext (setModelUri (uri a) w).2 (uri a)
             eq_refl Hne).
  - intros Hl He.
    assert (orElse (localUri a) (uri a) = "") as Ho
      by (unfold orElse; by destruct Hl as [-> | ->]).
    unfold assetsEffect. rewrite Ho.
    erewrite bind_returns by reflexivity.
    by rewrite load_no_uri.
Qed.

(** X14: a press that gets no image from the picker runs no inference:
    when the user cancels, nothing but the library trace changes (no
    line, the preview and the busy flag as they were); when the picker
    throws, the one line ["Pick Error: "] with the error is logged and
    the busy flag is cleared. *)
Theorem picker_without_image ext (w : World) (md : TensorflowModel) :
  model w = Some md →
  (launchImageLibraryAsync ext = Returns Canceled →
     pickAndDetect ext w =
     (Returns tt, recordCalls [LaunchImageLibrary] w)) ∧
  (∀ e, launchImageLibraryAsync ext = Throws e →
     console (pickAndDetect ext w).2 =
       console w ++ ["Pick Error: " +:+ e] ∧
     processing (pickAndDetect ext w).2 = false ∧
     imageUri (pickAndDetect ext w).2 = imageUri w ∧
     calls (pickAndDetect ext w).2 = calls w ++ [LaunchImageLibrary]).
Proof.
  intros Hm. split.
  - intros Hpick. by eapply pickAndDetect_canceled.
  - intros e Hpick. by erewrite pickAndDetect_throws.
Qed.

(** X15: a press that gets an image is the run on that image, started
    with the image as preview, the busy flag set and the line
    ["Image picked. Pre-processing..."] logged; the preview is still
    that image when the run is over, whatever happened in it. *)
Theorem picked_image_is_previewed ext (w : World) (md : TensorflowModel)
    (u : string) :
  model w = Some md →
  launchImageLibraryAsync ext = Returns (Picked u) →
  pickAndDetect ext w = runInference Gallery ext u (pickedWorld u w) ∧
  imageUri (pickedWorld u w) = Some u ∧
  processing (pickedWorld u w) = true ∧
  console (pickedWorld u w) =
    console w ++ ["Image picked. Pre-processing..."] ∧
  imageUri (pickAndDetect ext w).2 = Some u.
Proof.
  intros Hm Hpick.
  rewrite (pickAndDetect_picked _ _ _ _ Hm Hpick).
  repeat split.
  apply (sameImage_runInference Gallery ext u (pickedWorld u w)).
Qed.

(** X16: a press on the camera screen, with a model: without the camera
    only ["Camera not ready"] is logged; when taking the photo throws,
    ["Capturing photo..."] and the line ["Capture Error: "] with the
    error are logged, the busy flag is cleared and no inference runs;
    when a photo is taken, the press is the run on ["file://"] followed
    by the photo's path, which is also the preview. *)
Theorem capture_paths ext (w : World) (md : TensorflowModel) :
  model w = Some md →
  captureAndDetect false ext w =
    (Returns tt, (addLog "Camera not ready" w).2) ∧
  (∀ e, takePhoto ext = Throws e →
     console (captureAndDetect true ext w).2 =
       console w ++ ["Capturing photo..."; "Capture Error: " +:+ e] ∧
     processing (captureAndDetect true ext w).2 = false ∧
     imageUri (captureAndDetect true ext w).2 = imageUri w ∧
     calls (captureAndDetect true ext w).2 = calls w ++ [TakePhoto]) ∧
  (∀ path, takePhoto ext = Returns path →
     captureAndDetect true ext w =
       runInference Camera ext ("file://" +:+ path)
         (capturedWorld path w) ∧
     imageUri (captureAndDetect true ext w).2 =
       Some ("file://" +:+ path)).
Proof.
  intros Hm. split; [by eapply captureAndDetect_not_ready|]. split.
  - intros e Hphoto. erewrite captureAndDetect_throws by done.
    cbn [snd console processing imageUri calls addLog setProcessing
         recordCalls capturingWorld].
    by rewrite <- !app_assoc.
  - intros path Hphoto.
    rewrite (captureAndDetect_taken _ _ _ _ Hm Hphoto).
    split; [done|].
    apply (sameImage_runInference Camera ext _ (capturedWorld path w)).
Qed.

(** X17: the label of a detection is never empty: it is the table's
    entry for the class index, or ["Class "] followed by the index. *)
Theorem label_is_never_empty (classId : float) :
  labelOf classId ≠ "" ∧
  (COCO_LABELS !! Js.Number_toString Number_toString_ext classId =
     Some (labelOf classId) ∨
   labelOf classId =
     "Class " +:+ Js.Number_toString Number_toString_ext classId).
Proof.
  unfold labelOf.
  destruct (COCO_LABELS !! Js.Number_toString Number_toString_ext classId)
    as [l|] eqn:Hl.
  - destruct (String.eqb l "") eqn:He.
    + split; [intros H; discriminate H | by right].
    + apply String.eqb_neq in He. split; [done | by left].
  - split; [intros H; discriminate H | by right].
Qed.

(** X18: post-processing on two arrays writes at least one and at most
    25 lines, and adds as many entries to the log: one line for each
    slot of the 25 whose score is above the threshold, or the one line
    for no detection, which is written exactly when there is no such
    slot. *)
Theorem report_line_count v (cs ss : TypedArray) (w : World) :
  ∃ lines,
    console (reportDetections v (Some cs) (Some ss) w).2 =
      console w ++ lines ∧
    length (logs (reportDetections v (Some cs) (Some ss) w).2) =
      length (logs w) + length lines ∧
    1 ≤ length lines ≤ 25 ∧
    length lines = Nat.max 1 (length (keptSlots ss)) ∧
    ("No objects detected > 40%" ∈ lines ↔
     ∀ i, i < 25 → (SCORE_THRESHOLD <? slotScore ss i)%float = false) ∧
    ((∀ i, i < 25 → (SCORE_THRESHOLD <? slotScore ss i)%float = false) →
     lines = ["No objects detected > 40%"]).
Proof.
  exists (reportLines v cs ss).
  assert (length (reportLines v cs ss) = Nat.max 1 (length (keptSlots ss)))
    as Hlen.
  { unfold reportLines, detections.
    destruct (keptSlots ss) as [|i kept]; [done|].
    cbn [fmap list_fmap length]. rewrite !length_fmap. lia. }
  assert (length (keptSlots ss) ≤ 25) as Hle.
  { unfold keptSlots.
    etrans; [apply List.filter_length_le|].
    by rewrite length_seq. }
  assert (keptSlots ss = [] ↔
          ∀ i, i < 25 → (SCORE_THRESHOLD <? slotScore ss i)%float = false)
    as Hnone.
  { split.
    - intros Hk i Hi.
      destruct (SCORE_THRESHOLD <? slotScore ss i)%float eqn:Hp; [|done].
      assert (i ∈ keptSlots ss) as Hin by by apply keptSlots_spec.
      rewrite Hk in Hin. by apply not_elem_of_nil in Hin.
    - intros Hall.
      destruct (keptSlots ss) as [|i kept] eqn:Hk; [done|].
      assert (i ∈ keptSlots ss) as Hin by (rewrite Hk; left).
      apply keptSlots_spec in Hin as [Hi Hp].
      unfold passes in Hp. rewrite (Hall i Hi) in Hp. discriminate Hp. }
  split; [apply reportDetections_console|].
  split.
  { rewrite reportDetections_run. cbn [snd].
    rewrite logAll_logs, length_app, entriesFrom_length. lia. }
  split; [lia|]. split; [exact Hlen|].
  split.
  - rewrite <- Hnone. unfold reportLines, detections.
    destruct (keptSlots ss) as [|i kept].
    + split; [done|]. intros _. by left.
    + split; [|done]. cbn [fmap list_fmap].
      intros Hin. exfalso.
      apply list_elem_of_In in Hin.
      destruct Hin as [Hin|Hin].
      * by apply foundMessage_not_none in Hin.
      * apply list_elem_of_In, list_elem_of_fmap in Hin
          as (d & Hd & _).
        symmetry in Hd. by apply foundMessage_not_none in Hd.
  - intros Hall. apply reportLines_none. by apply Hnone.
Qed.

End Detector.

(** ** Concrete runs *)

Local Open Scope nat_scope.
Local Open Scope list_scope.

(** The two conversions of numbers to text. *)
Example toFixed0_samples :
  Js.toFixed0 sampleDigits (0.82 * 100)%float = "82" ∧
  Js.toFixed0 sampleDigits (0.57 * 100)%float = "57" ∧
  Js.toFixed0 sampleDigits 0.5%float = "1" ∧
  Js.toFixed0 sampleDigits (-0.5)%float = "-1" ∧
  Js.toFixed0 sampleDigits (-0.3)%float = "-0" ∧
  Js.toFixed0 sampleDigits infinity = "Infinity".
Proof. repeat split; vm_compute; reflexivity. Qed.

Example Number_toString_samples :
  Js.Number_toString sampleDigits 42%float = "42" ∧
  Js.Number_toString sampleDigits (-7)%float = "-7" ∧
  Js.Number_toString sampleDigits (-0)%float = "0" ∧
  Js.Number_toString sampleDigits Js.NaN = "NaN".
Proof. repeat split; vm_compute; reflexivity. Qed.

(** Two pixels and a stray byte: the alpha bytes are gone, the samples
    missing from the third pixel are zero, and so is the rest. *)
Example stripAlpha_nine_bytes :
  take 10 (stripAlpha [x01; x02; x03; xff; x05; x06; x07; xff; x09]) =
  [x01; x02; x03; x05; x06; x07; x09; x00; x00; x00].
Proof. vm_compute. reflexivity. Qed.

(** [slice(-20)] counts code units: an accented letter of two bytes is
    one, a character past U+FFFF is two, and a slice that starts inside
    it keeps the second half of its pair. *)
Example slice_last_samples :
  slice_last 20 "asset:/models/yolov8n.tflite" = "odels/yolov8n.tflite" ∧
  slice_last 20 "file:///cache/modèles/yolov8n.tflite" =
    "dèles/yolov8n.tflite" ∧
  slice_last 20 "yolov8n.tflite" = "yolov8n.tflite" ∧
  slice_last 20 "" = "" ∧
  slice_last 3 "a😀b" = "😀b" ∧
  String.list_ascii_of_string (slice_last 2 "a😀b") =
    [Ascii.ascii_of_N 237; Ascii.ascii_of_N 184; Ascii.ascii_of_N 128;
     Ascii.ascii_of_N 98] ∧
  slice_last 1 (slice_last 2 "a😀b") = "b".
Proof. vm_compute. repeat split. Qed.

(** A whole run of the gallery screen, from loading the model to the
    detections of one picked image. *)
Example gallery_run :
  logs
    ((load sampleClock Gallery sampleExternals;;
      pickAndDetect sampleClock sampleDigits sampleTypeError sampleExternals)
       {| modelUri := Some "asset:/models/yolov8n.tflite"; model := None;
          modelState := loading; logs := []; imageUri := None;
          processing := false; console := []; consoleErrors := [];
          dates := 0; calls := [] |}).2 =
  ["[10:07:00] âœ… FOUND: person (91%)";
   "[10:06:00] âœ… FOUND: car (82%)";
   "[10:05:00] Inference Done! Output tensors: 3";
   "[10:04:00] Running inference on image...";
   "[10:03:00] Image picked. Pre-processing...";
   "[10:02:00] Warmup complete.";
   "[10:01:00] Model loaded! Warming up...";
   "[10:00:00] Loading model: ...odels/yolov8n.tflite"].
Proof. vm_compute. reflexivity. Qed.

(** C1, as the spec states it, fails on a decoded buffer of one pixel:
    the output has 307200 bytes, not 3. *)
Lemma stripAlpha_one_pixel_length :
  length [x0a; x14; x1e; xff] = 4 * 1 ∧
  length (stripAlpha [x0a; x14; x1e; xff]) ≠ 3 * 1.
Proof.
  split; [reflexivity|].
  rewrite stripAlpha_length. unfold RGB_SIZE. lia.
Qed.

(** The amended C1 on the one-pixel buffer. *)
Lemma stripAlpha_rgb_of_rgba_witness :
  length [x0a; x14; x1e; xff] = 4 * 1 ∧
  length (stripAlpha [x0a; x14; x1e; xff]) = RGB_SIZE ∧
  (∀ i c, i < 1 → i < 320 * 320 → c < 3 →
     stripAlpha [x0a; x14; x1e; xff] !! (3 * i + c) =
     [x0a; x14; x1e; xff] !! (4 * i + c)).
Proof.
  split; [reflexivity|].
  pose proof (stripAlpha_rgb_of_rgba [x0a; x14; x1e; xff] 1 eq_refl)
    as (Hlen & _ & Hbytes & _).
  split; [exact Hlen | exact Hbytes].
Defined.


(** C4 on class index 42: its label, and the line that post-processing
    on the gallery screen writes for it at the score 0.9. *)
Lemma unmapped_class_label_witness :
  COCO_LABELS !! Js.Number_toString sampleDigits 42 = None ∧
  labelOf sampleDigits 42 = "Class 42" ∧
  console
    (postProcess sampleClock sampleDigits sampleTypeError Gallery
       [[]; [42%float]; [0.9%float]] initialWorld).2 =
  ["âœ… FOUND: Class 42 (90%)"].
Proof.
  assert (COCO_LABELS !! Js.Number_toString sampleDigits 42 = None) as H
    by (vm_compute; reflexivity).
  pose proof (unmapped_class_label sampleClock sampleDigits
                sampleTypeError 42 H) as (_ & H42 & _ & _ & Hrun).
  split; [exact H|]. split; [exact H42|].
  exact (Hrun Gallery [] initialWorld).
Defined.

(** C5 on a run of the gallery screen whose detector answers the scores
    [0.3, 0.4]: three lines, none from the error handler. *)
Lemma no_detections_outcome_witness :
  (runInference sampleClock sampleDigits sampleTypeError Gallery
     sampleExternals "file:///photo.jpg" (readyWorld quietModel)).1 =
  Returns tt ∧
  console
    (runInference sampleClock sampleDigits sampleTypeError Gallery
       sampleExternals "file:///photo.jpg" (readyWorld quietModel)).2 =
  ["Running inference on image..."; "Inference Done! Output tensors: 3";
   "No objects detected > 40%"] ∧
  processing
    (runInference sampleClock sampleDigits sampleTypeError Gallery
       sampleExternals "file:///photo.jpg" (readyWorld quietModel)).2 =
  false.
Proof.
  assert (∀ i, i < SLOTS →
            (SCORE_THRESHOLD <? slotScore [0.3; 0.4]%float i)%float = false)
    as Hnone.
  { intros i _. destruct i as [|[|i]]; vm_compute; reflexivity. }
  pose proof (no_detections_outcome sampleClock sampleDigits sampleTypeError
                Gallery sampleExternals "file:///photo.jpg"
                (readyWorld quietModel) quietModel
                "file:///photo.jpg?320" "/9j/" [x0a; x14; x1e; xff]
                quietOutput [0.3; 0.4]%float
                eq_refl eq_refl eq_refl eq_refl eq_refl eq_refl Hnone)
    as (_ & _ & Hret & Hconsole & Hproc & _).
  split; [exact Hret|]. split; [exact Hconsole | exact Hproc].
Defined.


(** The guard looks at the model instance, not at the state: when the
    loading effect runs again and fails, the state is [error] and the
    model of the first load is still there.  The gallery screen's button
    is disabled then; [pickAndDetect] itself, called in that state, goes
    through to the detector. *)
Example stale_model_is_used :
  modelState
    (load sampleClock Gallery failingExternals (readyWorld sampleModel)).2 =
  error ∧
  calls
    (pickAndDetect sampleClock sampleDigits sampleTypeError sampleExternals
       (load sampleClock Gallery failingExternals
          (readyWorld sampleModel)).2).2 =
  [LoadTensorflowModel "asset:/models/yolov8n.tflite"; LaunchImageLibrary;
   ManipulateAsync "file:///photo.jpg";
   FileBase64 "file:///photo.jpg?320"; JpegDecode "/9j/";
   RunSync (stripAlpha [x0a; x14; x1e; xff])].
Proof. split; [vm_compute; reflexivity | reflexivity]. Qed.

(** C10 on a score array of three entries: the two lines of its
    passing slots, and the same world as on the array filled up with
    [NaN]. *)
Lemma short_score_array_witness :
  length [0.82; 0.3; 0.91]%float < SLOTS ∧
  (reportDetections sampleClock sampleDigits sampleTypeError Gallery
     (Some [2; 5; 0]%float) (Some [0.82; 0.3; 0.91]%float)
     initialWorld).1 = Returns tt ∧
  (∀ i, i ∈ keptSlots [0.82; 0.3; 0.91]%float → i < 3) ∧
  length (detections sampleDigits [2; 5; 0]%float [0.82; 0.3; 0.91]%float)
    ≤ 3 ∧
  console
    (reportDetections sampleClock sampleDigits sampleTypeError Gallery
       (Some [2; 5; 0]%float) (Some [0.82; 0.3; 0.91]%float)
       initialWorld).2 =
  ["âœ… FOUND: car (82%)"; "âœ… FOUND: person (91%)"] ∧
  reportDetections sampleClock sampleDigits sampleTypeError Gallery
    (Some [2; 5; 0]%float) (Some [0.82; 0.3; 0.91]%float) initialWorld =
  reportDetections sampleClock sampleDigits sampleTypeError Gallery
    (Some [2; 5; 0]%float)
    (Some ([0.82; 0.3; 0.91]%float ++ replicate 22 Js.NaN)) initialWorld.
Proof.
  assert (length [0.82; 0.3; 0.91]%float < SLOTS) as Hshort
    by (unfold SLOTS; simpl; lia).
  pose proof (short_score_array sampleClock sampleDigits sampleTypeError
                Gallery [2; 5; 0]%float [0.82; 0.3; 0.91]%float
                initialWorld Hshort)
    as (_ & _ & _ & Hret & Hin & Hlen & Hconsole & Hpad & _).
  split; [exact Hshort|]. split; [exact Hret|].
  split; [exact Hin|]. split; [exact Hlen|].
  split; [|exact Hpad].
  rewrite Hconsole. vm_compute. reflexivity.
Defined.

(** ** Concrete runs of the rest of the screens *)

(** X1 on the gallery screen after its two effects. *)
Lemma enabled_button_opens_picker_witness :
  pickDisabled
    (runActions sampleClock sampleDigits sampleTypeError
       (mountActions Gallery) initialWorld) = false ∧
  is_Some
    (model
       (runActions sampleClock sampleDigits sampleTypeError
          (mountActions Gallery) initialWorld)).
Proof.
  assert (pickDisabled
            (runActions sampleClock sampleDigits sampleTypeError
               (mountActions Gallery) initialWorld) = false) as H
    by (vm_compute; reflexivity).
  split; [exact H|].
  exact (proj1 (enabled_button_opens_picker sampleClock sampleDigits
                  sampleTypeError (mountActions Gallery) sampleExternals
                  H)).
Defined.

(** X2 on the camera screen after its two effects: a model is there,
    and a press without the camera's reference writes its one line. *)
Lemma camera_controls_take_photo_witness :
  cameraScreen true true
    (runActions sampleClock sampleDigits sampleTypeError
       (mountActions Camera) initialWorld) = CameraControls false ∧
  is_Some
    (model
       (runActions sampleClock sampleDigits sampleTypeError
          (mountActions Camera) initialWorld)) ∧
  calls
    (runActions sampleClock sampleDigits sampleTypeError
       (mountActions Camera) initialWorld) ++ [TakePhoto]
    `prefix_of`
    calls
      (captureAndDetect sampleClock sampleDigits sampleTypeError true
         sampleExternals
         (runActions sampleClock sampleDigits sampleTypeError
            (mountActions Camera) initialWorld)).2 ∧
  console
    (captureAndDetect sampleClock sampleDigits sampleTypeError false
       sampleExternals
       (runActions sampleClock sampleDigits sampleTypeError
          (mountActions Camera) initialWorld)).2 =
  console
    (runActions sampleClock sampleDigits sampleTypeError
       (mountActions Camera) initialWorld) ++ ["Camera not ready"].
Proof.
  assert (cameraScreen true true
            (runActions sampleClock sampleDigits sampleTypeError
               (mountActions Camera) initialWorld) = CameraControls false)
    as H by (vm_compute; reflexivity).
  pose proof (camera_controls_take_photo sampleClock sampleDigits
                sampleTypeError (mountActions Camera) true true
                sampleExternals H) as (Hm & Hphoto & _ & _ & Hline).
  split; [exact H|]. split; [exact Hm|].
  split; [exact Hphoto | exact Hline].
Defined.

(** X6 on a run of the loaded gallery screen. *)
Lemma run_clears_busy_flag_witness :
  model (readyWorld sampleModel) = Some sampleModel ∧
  processing
    (runInference sampleClock sampleDigits sampleTypeError Gallery
       sampleExternals "file:///photo.jpg" (readyWorld sampleModel)).2 =
  false.
Proof.
  split; [reflexivity|].
  exact (proj1 (run_clears_busy_flag sampleClock sampleDigits
                  sampleTypeError (readyWorld sampleModel) sampleModel
                  eq_refl)
           Gallery sampleExternals "file:///photo.jpg").
Defined.

(** X9 on a run whose image does not decode. *)
Lemma failed_stage_stops_the_run_witness :
  calls
    (runInference sampleClock sampleDigits sampleTypeError Gallery
       undecodableExternals "file:///photo.jpg"
       (readyWorld sampleModel)).2 =
  [ManipulateAsync "file:///photo.jpg";
   FileBase64 "file:///photo.jpg?320"; JpegDecode "/9j/"] ∧
  console
    (runInference sampleClock sampleDigits sampleTypeError Gallery
       undecodableExternals "file:///photo.jpg"
       (readyWorld sampleModel)).2 =
  ["Inference Error: Error: SOI not found"].
Proof.
  pose proof (failed_stage_stops_the_run sampleClock sampleDigits
                sampleTypeError Gallery undecodableExternals
                "file:///photo.jpg" (readyWorld sampleModel) sampleModel
                eq_refl) as (_ & _ & Hdecode & _).
  exact (Hdecode "file:///photo.jpg?320" "/9j/" "Error: SOI not found"
           eq_refl eq_refl eq_refl).
Defined.

(** X10 on a detector that answers two arrays. *)
Lemma too_few_output_arrays_witness :
  console
    (runInference sampleClock sampleDigits sampleTypeError Gallery
       sampleExternals "file:///photo.jpg" (readyWorld shortModel)).2 =
  ["Running inference on image..."; "Inference Done! Output tensors: 2";
   "Inference Error: TypeError: Cannot read property '0' of undefined"] ∧
  processing
    (runInference sampleClock sampleDigits sampleTypeError Gallery
       sampleExternals "file:///photo.jpg" (readyWorld shortModel)).2 =
  false.
Proof.
  exact (too_few_output_arrays sampleClock sampleDigits sampleTypeError
           Gallery sampleExternals "file:///photo.jpg"
           (readyWorld shortModel) shortModel "file:///photo.jpg?320"
           "/9j/" [x0a; x14; x1e; xff] [[]; [2]%float]
           eq_refl eq_refl eq_refl eq_refl eq_refl eq_refl).
Defined.

(** X11 on a loader that throws, for a model at a location with an
    accented letter among its last twenty code units. *)
Lemma load_failure_keeps_old_model_witness :
  modelState
    (load sampleClock Gallery failingExternals
       (setModelUri "file:///cache/modèles/yolov8n.tflite"
          initialWorld).2).2 = error ∧
  console
    (load sampleClock Gallery failingExternals
       (setModelUri "file:///cache/modèles/yolov8n.tflite"
          initialWorld).2).2 =
    ["Loading model: ...dèles/yolov8n.tflite";
     "Error loading model: Error: model file is corrupt"].
Proof.
  assert ("file:///cache/modèles/yolov8n.tflite" ≠ "") as Hne
    by (intros H; discriminate H).
  pose proof (load_failure_keeps_old_model sampleClock Gallery
                failingExternals
                (setModelUri "file:///cache/modèles/yolov8n.tflite"
                   initialWorld).2
                "file:///cache/modèles/yolov8n.tflite"
                "Error: model file is corrupt" eq_refl Hne eq_refl)
    as (Hstate & _ & Hconsole & _).
  split; [exact Hstate | exact Hconsole].
Defined.

(** X12 on a model whose warm-up throws. *)
Lemma load_success_tolerates_warmup_failure_witness :
  modelState (load sampleClock Camera coldExternals mountedWorld).2 =
    loaded ∧
  consoleErrors (load sampleClock Camera coldExternals mountedWorld).2 =
    ["Error: interpreter failed"] ∧
  console (load sampleClock Camera coldExternals mountedWorld).2 =
    ["Loading model..."; "Model loaded! Warming up..."].
Proof.
  assert ("asset:/models/yolov8n.tflite" ≠ "") as Hne
    by (intros H; discriminate H).
  pose proof (load_success_tolerates_warmup_failure sampleClock Camera
                coldExternals mountedWorld "asset:/models/yolov8n.tflite"
                coldModel eq_refl Hne eq_refl)
    as (Hstate & _ & _ & _ & Hcold).
  destruct (Hcold "Error: interpreter failed" eq_refl) as [Hc He].
  split; [exact Hstate|]. split; [exact He | exact Hc].
Defined.

(** X14 on a picker that the user cancels. *)
Lemma picker_without_image_witness :
  pickAndDetect sampleClock sampleDigits sampleTypeError canceledExternals
    (readyWorld sampleModel) =
  (Returns tt, recordCalls [LaunchImageLibrary] (readyWorld sampleModel)).
Proof.
  exact (proj1 (picker_without_image sampleClock sampleDigits
                  sampleTypeError canceledExternals
                  (readyWorld sampleModel) sampleModel eq_refl)
           eq_refl).
Defined.

(** X15 on a picked image. *)
Lemma picked_image_is_previewed_witness :
  imageUri
    (pickAndDetect sampleClock sampleDigits sampleTypeError sampleExternals
       (readyWorld sampleModel)).2 = Some "file:///photo.jpg".
Proof.
  pose proof (picked_image_is_previewed sampleClock sampleDigits
                sampleTypeError sampleExternals (readyWorld sampleModel)
                sampleModel "file:///photo.jpg" eq_refl eq_refl)
    as (_ & _ & _ & _ & H).
  exact H.
Defined.

(** X16 on a camera that throws. *)
Lemma capture_paths_witness :
  console
    (captureAndDetect sampleClock sampleDigits sampleTypeError true
       canceledExternals (readyWorld sampleModel)).2 =
  ["Capturing photo..."; "Capture Error: Error: camera is closed"] ∧
  processing
    (captureAndDetect sampleClock sampleDigits sampleTypeError true
       canceledExternals (readyWorld sampleModel)).2 = false.
Proof.
  pose proof (capture_paths sampleClock sampleDigits sampleTypeError
                canceledExternals (readyWorld sampleModel) sampleModel
                eq_refl) as (_ & Hthrow & _).
  destruct (Hthrow "Error: camera is closed" eq_refl)
    as (Hc & Hp & _).
  split; [exact Hc | exact Hp].
Defined.

(** ** The comma-separated boxes *)

Import Csv.

Lemma trimStart_fixed (s : list N) :
  trimStart s = s ↔ ∀ c, head s = Some c → isWhiteSpace c = false.
Proof.
  destruct s as [|c s]; [done|]. cbn [trimStart head]. split.
  - intros H c' [= <-]. destruct (isWhiteSpace c) eqn:Hc; [|done].
    exfalso. clear Hc. revert c H.
    induction s as [|d s IH]; intros c H; [done|].
    cbn [trimStart] in H. destruct (isWhiteSpace d); [|].
    + pose proof (f_equal length H) as Hlen. cbn [length] in Hlen.
      assert (length (trimStart s) ≤ length s) as Hle.
      { clear. induction s as [|e s IH]; [done|]. cbn [trimStart].
        destruct (isWhiteSpace e); cbn [length]; lia. }
      lia.
    + pose proof (f_equal length H) as Hlen. cbn [length] in Hlen. lia.
  - intros H. by rewrite (H c eq_refl).
Qed.

Lemma trimStart_head (s : list N) c :
  head (trimStart s) = Some c → isWhiteSpace c = false.
Proof.
  induction s as [|d s IH]; [done|]. cbn [trimStart].
  destruct (isWhiteSpace d) eqn:Hd; [done|].
  by intros [= <-].
Qed.

Lemma trimStart_idem (s : list N) : trimStart (trimStart s) = trimStart s.
Proof. apply trimStart_fixed. intros c. apply trimStart_head. Qed.

Lemma trimStart_elem (s : list N) c : c ∈ trimStart s → c ∈ s.
Proof.
  induction s as [|d s IH]; [done|]. cbn [trimStart].
  destruct (isWhiteSpace d); [|done].
  intros H. right. by apply IH.
Qed.

(** [trimStart] on a text and what follows it. *)
Lemma trimStart_app (a b : list N) :
  trimStart (a ++ b) =
  if forallb isWhiteSpace a then trimStart b else trimStart a ++ b.
Proof.
  induction a as [|c a IH]; [done|].
  cbn [app trimStart forallb].
  destruct (isWhiteSpace c); [exact IH | done].
Qed.

Lemma trimStart_blank (a : list N) :
  forallb isWhiteSpace a = true → trimStart a = [].
Proof.
  induction a as [|c a IH]; [done|]. cbn [forallb trimStart].
  destruct (isWhiteSpace c); [exact IH | done].
Qed.

Lemma head_rev_last {A} (x : list A) : head (rev x) = last x.
Proof.
  induction x as [|a x IH] using rev_ind; [done|].
  rewrite rev_app_distr, last_snoc. done.
Qed.

Lemma trim_elem (s : list N) c : c ∈ trim s → c ∈ s.
Proof.
  unfold trim, trimEnd. intros H.
  apply list_elem_of_In, in_rev, list_elem_of_In, trimStart_elem in H.
  apply list_elem_of_In, in_rev, list_elem_of_In in H.
  by apply trimStart_elem.
Qed.

(** What [trim] leaves has no white space at either end. *)
Lemma trim_ends (s : list N) :
  (∀ c, head (trim s) = Some c → isWhiteSpace c = false) ∧
  (∀ c, last (trim s) = Some c → isWhiteSpace c = false).
Proof.
  unfold trim, trimEnd. set (q := trimStart s).
  assert (∀ c, head q = Some c → isWhiteSpace c = false) as Hq
    by (intros c; apply trimStart_head).
  split.
  - intros c Hc.
    destruct (trimStart (rev q)) as [|d r] eqn:Hr; [done|].
    assert (∃ pre, rev q = pre ++ d :: r) as [pre Hpre].
    { clear -Hr. induction (rev q) as [|e t IH]; [done|].
      cbn [trimStart] in Hr. destruct (isWhiteSpace e).
      - destruct (IH Hr) as [pre ->]. by exists (e :: pre).
      - exists []. by rewrite Hr. }
    apply (f_equal (@rev N)) in Hpre.
    rewrite rev_involutive, rev_app_distr in Hpre.
    apply Hq. rewrite Hpre.
    destruct (rev (d :: r)) as [|e t] eqn:Hrev.
    + apply (f_equal length) in Hrev. rewrite length_rev in Hrev. done.
    + cbn [app head]. exact Hc.
  - intros c. rewrite <- head_rev_last, rev_involutive.
    apply trimStart_head.
Qed.

Lemma trim_clean (x : list N) :
  (∀ c, head x = Some c → isWhiteSpace c = false) →
  (∀ c, last x = Some c → isWhiteSpace c = false) →
  trim x = x.
Proof.
  intros Hh Hl. unfold trim, trimEnd.
  rewrite (proj2 (trimStart_fixed x) Hh).
  rewrite (proj2 (trimStart_fixed (rev x))).
  - apply rev_involutive.
  - intros c. rewrite head_rev_last. apply Hl.
Qed.

Lemma trim_blank_front (c : N) (p : list N) :
  isWhiteSpace c = true → trim (c :: p) = trim p.
Proof. intros Hc. unfold trim. cbn [trimStart]. by rewrite Hc. Qed.

Lemma trim_blank_back (c : N) (p : list N) :
  isWhiteSpace c = true → trim (p ++ [c]) = trim p.
Proof.
  intros Hc. unfold trim. rewrite trimStart_app.
  destruct (forallb isWhiteSpace p) eqn:Hp.
  - rewrite (trimStart_blank p Hp). cbn [trimStart]. by rewrite Hc.
  - unfold trimEnd. rewrite rev_app_distr. cbn [rev app trimStart].
    by rewrite Hc.
Qed.

(** A text that holds a code unit that is not white space is not
    trimmed away. *)
Lemma trim_not_blank (c : N) (p : list N) :
  isWhiteSpace c = false → trim (c :: p) ≠ [].
Proof.
  intros Hc. unfold trim, trimEnd. cbn [trimStart]. rewrite Hc.
  cbn [rev]. rewrite trimStart_app.
  destruct (forallb isWhiteSpace (rev p)).
  - cbn [trimStart]. rewrite Hc. done.
  - intros H. apply (f_equal length) in H.
    rewrite length_rev, length_app in H. cbn [length] in H. lia.
Qed.

Lemma split_cons (v : list N) : ∃ p ps, split v = p :: ps.
Proof.
  induction v as [|c v (p & ps & IH)]; [by eexists _, _|].
  cbn [split]. destruct (c =? COMMA)%N; [by eexists _, _|].
  rewrite IH. by eexists _, _.
Qed.

Lemma split_no_comma (a : list N) : COMMA ∉ a → split a = [a].
Proof.
  induction a as [|c a IH]; [done|]. intros Hc.
  apply not_elem_of_cons in Hc as [Hne Ha]. cbn [split].
  destruct (N.eqb_spec c COMMA) as [->|_]; [done|].
  by rewrite IH.
Qed.

Lemma split_at_comma (a b : list N) :
  COMMA ∉ a → split (a ++ COMMA :: b) = a :: split b.
Proof.
  induction a as [|c a IH]; [done|]. intros Hc.
  apply not_elem_of_cons in Hc as [Hne Ha]. cbn [split app].
  destruct (N.eqb_spec c COMMA) as [->|_]; [done|].
  by rewrite IH.
Qed.

Lemma split_pieces (v : list N) : Forall (λ p, COMMA ∉ p) (split v).
Proof.
  induction v as [|c v IH]; [repeat constructor; apply not_elem_of_nil|].
  cbn [split]. destruct (N.eqb_spec c COMMA) as [->|Hne].
  - constructor; [apply not_elem_of_nil | done].
  - destruct (split_cons v) as (p & ps & Hs). rewrite Hs in *.
    inversion IH as [|? ? Hp Hps]; subst.
    constructor; [|done].
    apply not_elem_of_cons. split; [congruence | done].
Qed.

Lemma split_snoc_comma (v : list N) : split (v ++ [COMMA]) = split v ++ [[]].
Proof.
  induction v as [|c v IH]; [done|]. cbn [split app].
  destruct (c =? COMMA)%N; [by rewrite IH|].
  rewrite IH. by destruct (split_cons v) as (p & ps & ->).
Qed.

Lemma split_snoc_other (v : list N) (c : N) :
  c ≠ COMMA →
  ∃ ps p, split v = ps ++ [p] ∧ split (v ++ [c]) = ps ++ [p ++ [c]].
Proof.
  intros Hc. induction v as [|d v (ps & p & Hv & Hvc)].
  - exists [], []. cbn [split app].
    destruct (N.eqb_spec c COMMA); done.
  - cbn [split app]. rewrite Hv, Hvc.
    destruct (d =? COMMA)%N.
    + by exists ([] :: ps), p.
    + destruct ps as [|q ps]; cbn [app].
      * by exists [], (d :: p).
      * by exists ((d :: q) :: ps), p.
Qed.

(** A separator in front of the text or behind it changes nothing. *)
Lemma parseCsv_separator_front (c : N) (v : list N) :
  separator c → parseCsv (c :: v) = parseCsv v.
Proof.
  unfold parseCsv. intros [->|Hc]; [done|].
  cbn [split].
  destruct (N.eqb_spec c COMMA) as [->|_]; [done|].
  destruct (split_cons v) as (p & ps & ->).
  cbn [List.map]. by rewrite trim_blank_front.
Qed.

Lemma parseCsv_separator_back (c : N) (v : list N) :
  separator c → parseCsv (v ++ [c]) = parseCsv v.
Proof.
  unfold parseCsv. intros [->|Hc].
  - rewrite split_snoc_comma, List.map_app, List.filter_app.
    cbn [List.map List.filter]. by rewrite app_nil_r.
  - assert (c ≠ COMMA) as Hne by (by intros ->).
    destruct (split_snoc_other v c Hne) as (ps & p & -> & ->).
    rewrite !List.map_app. cbn [List.map].
    by rewrite trim_blank_back.
Qed.

Lemma parseCsv_clean (v : list N) : Forall clean (parseCsv v).
Proof.
  unfold parseCsv. apply Forall_forall. intros x Hx.
  apply list_elem_of_In, filter_In in Hx as [Hx Ht].
  apply in_map_iff in Hx as (p & <- & Hp).
  pose proof (proj1 (Forall_forall _ _) (split_pieces v) p
                (proj2 (list_elem_of_In _ _) Hp)) as Hfree.
  destruct (trim_ends p) as [Hh Hl].
  split; [by destruct (trim p)|]. split; [|done].
  intros Hin. by apply Hfree, trim_elem.
Qed.

Lemma clean_trim (x : list N) : clean x → trim x = x ∧ truthy x = true.
Proof.
  intros (Hne & _ & Hh & Hl). split; [by apply trim_clean|].
  by destruct x.
Qed.

(** The text of a box, parsed, is the list that the box was made of. *)
Lemma parseCsv_join (xs : list (list N)) :
  Forall clean xs → parseCsv (join xs) = xs.
Proof.
  induction 1 as [|x rest Hx Hrest IH]; [done|].
  destruct (clean_trim x Hx) as [Htrim Htruthy].
  destruct Hx as (_ & Hfree & _).
  destruct rest as [|y rest].
  - cbn [join]. unfold parseCsv. rewrite (split_no_comma x Hfree).
    cbn [List.map List.filter]. by rewrite Htrim, Htruthy.
  - change (join (x :: y :: rest))
      with (x ++ COMMA :: SPACE :: join (y :: rest)).
    unfold parseCsv. rewrite (split_at_comma _ _ Hfree).
    cbn [List.map List.filter]. rewrite Htrim, Htruthy. f_equal.
    change (parseCsv (SPACE :: join (y :: rest)) = y :: rest).
    rewrite parseCsv_separator_front by (by right).
    exact IH.
Qed.

(** X19: every entry that [parseCsv] gives is clean: it is not empty,
    holds no comma, and neither starts nor ends with white space. *)
Theorem parseCsv_entries_are_clean (v : list N) :
  Forall clean (parseCsv v).
Proof. apply parseCsv_clean. Qed.

(** X20: the text that the form shows for a list of clean entries, the
    entries joined by a comma and a blank, parses back to that list. *)
Theorem parseCsv_reads_back_the_box (xs : list (list N)) :
  Forall clean xs → parseCsv (join xs) = xs.
Proof. apply parseCsv_join. Qed.

(** X21: the box is stable: showing the parsed list and parsing what is
    shown gives the same list, whatever was typed. *)
Theorem parseCsv_box_is_stable (v : list N) :
  parseCsv (join (parseCsv v)) = parseCsv v.
Proof. apply parseCsv_join, parseCsv_clean. Qed.

(** X22: a comma or a white space code unit at either end of the text
    changes nothing in the parsed list; so when one is typed at the end
    of what the box shows, the box shows the same text again. *)
Theorem separator_at_an_end_is_swallowed (c : N) (v : list N) :
  separator c →
  parseCsv (v ++ [c]) = parseCsv v ∧
  parseCsv (c :: v) = parseCsv v ∧
  (∀ xs, Forall clean xs → join (parseCsv (join xs ++ [c])) = join xs).
Proof.
  intros Hc. split; [by apply parseCsv_separator_back|].
  split; [by apply parseCsv_separator_front|].
  intros xs Hxs.
  by rewrite parseCsv_separator_back, parseCsv_join.
Qed.

(** X23: the parsed list is empty exactly when the text holds nothing
    but commas and white space (the empty text included). *)
Theorem parseCsv_empty_iff (v : list N) :
  parseCsv v = [] ↔ Forall separator v.
Proof.
  induction v as [|c v IH]; [done|].
  destruct (isWhiteSpace c) eqn:Hws.
  - rewrite parseCsv_separator_front by (by right).
    rewrite IH. split; [intros H; constructor; [by right | done]|].
    by inversion 1.
  - destruct (N.eqb_spec c COMMA) as [->|Hne].
    + rewrite parseCsv_separator_front by (by left).
      rewrite IH. split; [intros H; constructor; [by left | done]|].
      by inversion 1.
    + split.
      * intros H. exfalso. unfold parseCsv in H. cbn [split] in H.
        destruct (N.eqb_spec c COMMA) as [|_]; [done|].
        destruct (split_cons v) as (p & ps & Hs). rewrite Hs in H.
        cbn [List.map List.filter] in H.
        pose proof (trim_not_blank c p Hws) as Hnb.
        destruct (trim (c :: p)); [done | discriminate H].
      * inversion 1 as [|? ? [Hc|Hc] _]; subst; [done | congruence].
Qed.

Lemma parseCsv_reads_back_the_box_witness :
  parseCsv (join [[82; 48; 48; 49]; [82; 48; 48; 52]]%N) =
  [[82; 48; 48; 49]; [82; 48; 48; 52]]%N.
Proof.
  apply parseCsv_reads_back_the_box.
  exact (parseCsv_clean
           [82; 48; 48; 49; 44; 32; 32; 82; 48; 48; 52; 32; 44]%N).
Defined.

Lemma separator_at_an_end_is_swallowed_witness :
  separator COMMA ∧
  parseCsv ([82; 48; 48; 49] ++ [COMMA])%N = parseCsv [82; 48; 48; 49]%N.
Proof.
  assert (separator COMMA) as H by (by left).
  split; [exact H|].
  exact (proj1 (separator_at_an_end_is_swallowed COMMA
                  [82; 48; 48; 49]%N H)).
Defined.
